(** * Duck Machine DM2022: the CPU core of [DuckMachineCPU/cpu/cpu.py]

    A shallow embedding of the arithmetic unit ([ALU]), the step-begin event
    ([CPUStep]) and the fetch/decode/execute engine ([CPU.step], [CPU.run]),
    with the properties of the CPU that the specification states.

    Python integers are unbounded, so they are [Z].  Python code that can
    raise returns an [Outcome]; the methods of [CPU] run in a small monad
    that threads the CPU object and records, in order, every call made on a
    collaborator (register, memory, listeners) and every attribute store. *)

From Stdlib Require Import ZArith List Bool Lia Permutation.
From stdpp Require Import base list gmap.
Import ListNotations.

Local Open Scope Z_scope.

(** ** Python results *)

(** The exceptions the modelled code can meet. *)
Inductive PyExn : Type :=
| ZeroDivisionError
| KeyError
| IndexError.

Inductive Outcome (A : Type) : Type :=
| Ok (a : A)
| Raise (e : PyExn).

Arguments Ok {A} a.
Arguments Raise {A} e.

(** [seq[i]] on a Python list: indices [0 .. len-1] from the front,
    [-len .. -1] from the back, anything else raises [IndexError]. *)
Definition py_index {A : Type} (l : list A) (i : Z) : Outcome nat :=
  let n := Z.of_nat (length l) in
  if (0 <=? i) && (i <? n) then Ok (Z.to_nat i)
  else if (- n <=? i) && (i <? 0) then Ok (Z.to_nat (n + i))
  else Raise IndexError.

(** ** The collaborators that [cpu.py] imports *)

(** Modelled from the spec: [OpCode] of instruction_set/instr_format.py, which
    is not among the sources.  The spec lists Add, Subtract, Multiply, Divide,
    Load, Store and Halt, and lets the decoder hand out undefined opcodes
    (section 6); [OTHER k] is any such value, one that is no key of
    [ALU_OPS]. *)
Inductive OpCode : Type :=
| HALT | LOAD | STORE | ADD | SUB | MUL | DIV
| OTHER (code : Z).

(** Modelled from the spec: [CondFlag] of instruction_set/instr_format.py, a
    flag enumeration combined with [&].  A value is a bit set; Minus, Zero,
    Plus and Fault are one bit each and the always-true sentinel is their
    union (spec sections 3 and 9). *)
Definition CondFlag : Type := Z.
Definition CondFlag_M : CondFlag := 1.
Definition CondFlag_Z : CondFlag := 2.
Definition CondFlag_P : CondFlag := 4.
Definition CondFlag_V : CondFlag := 8.
Definition CondFlag_ALWAYS : CondFlag :=
  Z.lor (Z.lor CondFlag_M CondFlag_Z) (Z.lor CondFlag_P CondFlag_V).

(** Modelled from the spec: the decoded [Instruction] of
    instruction_set/instr_format.py (spec section 3). *)
Record Instruction : Type := mkInstruction {
  op : OpCode;
  cond : CondFlag;
  reg_target : Z;
  reg_src1 : Z;
  reg_src2 : Z;
  offset : Z
}.

(** Modelled from the spec: [Register] and [ZeroRegister] of cpu/register.py
    (spec sections 3 and 4.2): a cell read by [get] and written by [put]; the
    zero register reads 0 and discards every [put]. *)
Inductive Register : Type :=
| PlainRegister (val : Z)
| ZeroRegister.

Definition Register_get (r : Register) : Z :=
  match r with
  | PlainRegister v => v
  | ZeroRegister => 0
  end.

Definition Register_put (r : Register) (v : Z) : Register :=
  match r with
  | PlainRegister _ => PlainRegister v
  | ZeroRegister => ZeroRegister
  end.

(** Modelled from the spec: [Memory] of cpu/memory.py (spec section 6):
    [get(address)] and [put(address, value)] over plain integers.  A memory is
    any assignment of words to addresses. *)
Definition Memory : Type := Z -> Z.

Definition Memory_get (m : Memory) (addr : Z) : Z := m addr.

Definition Memory_put (m : Memory) (addr val : Z) : Memory :=
  fun a => if a =? addr then val else m a.

(** ** ALU *)

(** The table [ALU.ALU_OPS]: a lookup with a key outside it is [None]. *)
Definition ALU_OPS (o : OpCode) : option (Z -> Z -> Outcome Z) :=
  match o with
  | ADD => Some (fun x y => Ok (x + y))
  | SUB => Some (fun x y => Ok (x - y))
  | MUL => Some (fun x y => Ok (x * y))
  | DIV => Some (fun x y => if y =? 0 then Raise ZeroDivisionError else Ok (x / y))
  | LOAD => Some (fun x y => Ok (x + y))
  | STORE => Some (fun x y => Ok (x + y))
  | HALT => Some (fun _ _ => Ok 0)
  | OTHER _ => None
  end.

(** [self.ALU_OPS[op](in1, in2)]. *)
Definition ALU_apply (o : OpCode) (in1 in2 : Z) : Outcome Z :=
  match ALU_OPS o with
  | Some f => f in1 in2
  | None => Raise KeyError
  end.

(** The body of the [try] in [ALU.exec]. *)
Definition ALU_exec_try (o : OpCode) (in1 in2 : Z) : Outcome (Z * CondFlag) :=
  match ALU_apply o in1 in2 with
  | Raise e => Raise e
  | Ok sol =>
      let flag :=
        if sol =? 0 then CondFlag_Z
        else if sol <? 0 then CondFlag_M
        else CondFlag_P in
      Ok (sol, flag)
  end.

(** [ALU.exec]: the bare [except:] turns every exception of the body into
    [(0, CondFlag.V)]. *)
Definition ALU_exec (o : OpCode) (in1 in2 : Z) : Outcome (Z * CondFlag) :=
  match ALU_exec_try o in1 in2 with
  | Ok r => Ok r
  | Raise _ => Ok (0, CondFlag_V)
  end.

(** ** CPU state, events and the recorded actions *)

(** The attributes of a [CPU] object.  [alu] has no state and the listener
    list is never changed by [cpu.py]; neither is a field here. *)
Record CPU : Type := mkCPU {
  memory : Memory;
  registers : list Register;
  condition : CondFlag;
  halted : bool
}.

(** [CPUStep.__init__(self, subject, pc_addr, instr_word, instr)]: the four
    fields take the four arguments in this order. *)
Record CPUStep : Type := mkCPUStep {
  subject : CPU;
  pc_addr : Z;
  instr_word : Z;
  instr : Instruction
}.

(** What a method of [CPU] does to the world around its local variables, one
    constructor per kind of call or attribute store in [cpu.py]. *)
Inductive Action : Type :=
| RegGet (i : Z)               (* self.registers[i].get() *)
| RegPut (i v : Z)             (* self.registers[i].put(v) *)
| MemGet (addr : Z)            (* self.memory.get(addr) *)
| MemPut (addr val : Z)        (* self.memory.put(addr, val) *)
| NotifyAll (event : CPUStep)  (* self.notify_all(event) *)
| SetCondition (f : CondFlag)  (* self.condition = f *)
| SetHalted (b : bool).        (* self.halted = b *)

(** The broadcasts among the recorded actions. *)
Definition is_notify (a : Action) : bool :=
  match a with
  | NotifyAll _ => true
  | _ => false
  end.

(** A method body: from the CPU object to an exception, or to a value, the
    CPU afterwards and the actions performed, oldest first. *)
Definition M (A : Type) : Type := CPU -> Outcome (A * CPU * list Action).

Definition M_ret {A : Type} (a : A) : M A := fun c => Ok (a, c, []).

Definition M_bind {A B : Type} (m : M A) (f : A -> M B) : M B :=
  fun c =>
    match m c with
    | Raise e => Raise e
    | Ok (a, c1, t1) =>
        match f a c1 with
        | Raise e => Raise e
        | Ok (b, c2, t2) => Ok (b, c2, t1 ++ t2)
        end
    end.

Declare Scope cpu_scope.
Delimit Scope cpu_scope with cpu.
Notation "x <- m1 ;; m2" := (M_bind m1 (fun x => m2))
  (at level 100, m1 at next level, right associativity) : cpu_scope.
Notation "m1 ;; m2" := (M_bind m1 (fun _ => m2))
  (at level 100, right associativity) : cpu_scope.

(** Attribute stores on the CPU object, one field at a time. *)
Definition set_registers (c : CPU) (rs : list Register) : CPU :=
  mkCPU (memory c) rs (condition c) (halted c).
Definition set_memory (c : CPU) (m : Memory) : CPU :=
  mkCPU m (registers c) (condition c) (halted c).
Definition set_cond (c : CPU) (f : CondFlag) : CPU :=
  mkCPU (memory c) (registers c) f (halted c).
Definition set_halt (c : CPU) (b : bool) : CPU :=
  mkCPU (memory c) (registers c) (condition c) b.

(** [self.registers[i].get()]. *)
Definition reg_get (i : Z) : M Z :=
  fun c =>
    match py_index (registers c) i with
    | Raise e => Raise e
    | Ok n =>
        match registers c !! n with
        | Some r => Ok (Register_get r, c, [RegGet i])
        | None => Raise IndexError
        end
    end.

(** [self.registers[i].put(v)]: the register object at that index changes,
    the list keeps its length. *)
Definition reg_put (i v : Z) : M unit :=
  fun c =>
    match py_index (registers c) i with
    | Raise e => Raise e
    | Ok n =>
        match registers c !! n with
        | Some r =>
            Ok (tt, set_registers c (<[n := Register_put r v]> (registers c)),
                [RegPut i v])
        | None => Raise IndexError
        end
    end.

(** [self.memory.get(addr)] and [self.memory.put(addr, val)]. *)
Definition mem_get (addr : Z) : M Z :=
  fun c => Ok (Memory_get (memory c) addr, c, [MemGet addr]).

Definition mem_put (addr val : Z) : M unit :=
  fun c => Ok (tt, set_memory c (Memory_put (memory c) addr val), [MemPut addr val]).

(** Modelled from the spec: [notify_all] of cpu/mvc.py, which is not among the
    sources: the event is handed synchronously to every registered listener
    (spec section 6); listeners do not change the CPU. *)
Definition notify_all (event : CPUStep) : M unit :=
  fun c => Ok (tt, c, [NotifyAll event]).

(** [self], as an argument or to read an attribute. *)
Definition get_self : M CPU := fun c => Ok (c, c, []).

(** [self.condition = f] and [self.halted = b]. *)
Definition set_condition (f : CondFlag) : M unit :=
  fun c => Ok (tt, set_cond c f, [SetCondition f]).

Definition set_halted (b : bool) : M unit :=
  fun c => Ok (tt, set_halt c b, [SetHalted b]).

(** [ALU.exec] called from a method: only its exception, if any, matters to
    the CPU. *)
Definition alu_exec (o : OpCode) (in1 in2 : Z) : M (Z * CondFlag) :=
  fun c =>
    match ALU_exec o in1 in2 with
    | Ok r => Ok (r, c, [])
    | Raise e => Raise e
    end.

(** Modelled from the spec: a fresh [Register()] of cpu/register.py.  The spec
    does not say what it holds; 0 is taken here. *)
Definition Register_new : Register := PlainRegister 0.

(** [CPU.__init__]. *)
Definition CPU_init (m : Memory) : CPU :=
  {| memory := m;
     registers := [ ZeroRegister; Register_new; Register_new; Register_new;
                    Register_new; Register_new; Register_new; Register_new;
                    Register_new; Register_new; Register_new; Register_new;
                    Register_new; Register_new; Register_new; Register_new ];
     condition := CondFlag_ALWAYS;
     halted := false |}.

Section Engine.

(** [decode] of instruction_set/instr_format.py is not among the sources;
    the engine is defined over any decoder. *)
Variable decode : Z -> Instruction.

Local Open Scope cpu_scope.

(** [CPU.step].  The local names are the source's: [instr_word] is what the
    program counter holds and [instr_addr] is what memory holds there. *)
Definition step : M unit :=
  (* Fetch *)
  instr_word <- reg_get 15 ;;
  instr_addr <- mem_get instr_word ;;
  (* Decode *)
  let instr := decode instr_addr in
  self <- get_self ;;
  notify_all (mkCPUStep self instr_addr instr_word instr) ;;
  (* Execute *)
  self <- get_self ;;
  let result := Z.land (condition self) (cond instr) in
  if negb (result =? 0) then
    l_operand <- reg_get (reg_src1 instr) ;;
    r_src2 <- reg_get (reg_src2 instr) ;;
    let r_operand := r_src2 + offset instr in
    res <- alu_exec (op instr) l_operand r_operand ;;
    let '(result, new_cond) := res in
    set_condition new_cond ;;
    (if new_cond =? CondFlag_V then set_halted true else M_ret tt) ;;
    counter0 <- reg_get 15 ;;
    let counter := counter0 + 1 in
    reg_put 15 counter ;;
    match op instr with
    | HALT => set_halted true
    | LOAD =>
        let val := reg_target instr in
        fetch_val <- mem_get result ;;
        reg_put val fetch_val
    | STORE =>
        let val := reg_target instr in
        fetch_val <- reg_get val ;;
        mem_put result fetch_val
    | _ =>
        let val := reg_target instr in
        reg_put val result
    end
  else
    counter0 <- reg_get 15 ;;
    let counter := counter0 + 1 in
    reg_put 15 counter.

(** The [while not self.halted] loop of [CPU.run] with [single_step] false.
    [fuel] bounds the number of iterations; [None] means the loop is still
    running when the fuel is spent. *)
Fixpoint run_loop (fuel : nat) (c : CPU) : option (Outcome (unit * CPU * list Action)) :=
  if halted c then Some (Ok (tt, c, []))
  else
    match fuel with
    | O => None
    | S fuel' =>
        match step c with
        | Raise e => Some (Raise e)
        | Ok (_, c1, t1) =>
            match run_loop fuel' c1 with
            | None => None
            | Some (Raise e) => Some (Raise e)
            | Some (Ok (_, c2, t2)) => Some (Ok (tt, c2, t1 ++ t2))
            end
        end
    end.

(** The two stores that open [CPU.run]. *)
Definition run_setup (from_addr : Z) : M unit :=
  set_halted false ;;
  reg_put 15 from_addr.

(** [CPU.run(from_addr)], [single_step] left at its default. *)
Definition run (fuel : nat) (from_addr : Z) (c : CPU)
  : option (Outcome (unit * CPU * list Action)) :=
  match run_setup from_addr c with
  | Raise e => Some (Raise e)
  | Ok (_, c1, t1) =>
      match run_loop fuel c1 with
      | None => None
      | Some (Raise e) => Some (Raise e)
      | Some (Ok (_, c2, t2)) => Some (Ok (tt, c2, t1 ++ t2))
      end
  end.

End Engine.

(** ** Reading a CPU state *)

(** The value register [i] holds, for an index [0 .. 15]. *)
Definition reg (c : CPU) (i : Z) : Z :=
  match registers c !! Z.to_nat i with
  | Some r => Register_get r
  | None => 0
  end.

(** The program counter is register 15. *)
Definition pc (c : CPU) : Z := reg c 15.

(** The register file after [registers[i].put(v)], for an index [0 .. 15]. *)
Definition write_reg (rs : list Register) (i v : Z) : list Register :=
  match rs !! Z.to_nat i with
  | Some r => <[Z.to_nat i := Register_put r v]> rs
  | None => rs
  end.

(** The shape [CPU.__init__] gives the register file and every [put] keeps:
    the zero register followed by fifteen plain registers. *)
Definition register_file (rs : list Register) : Prop :=
  exists vs : list Z, length vs = 15%nat /\ rs = ZeroRegister :: (PlainRegister <$> vs).

(** The decoder's contract (spec section 6): register indices in 0..15. *)
Definition in_range (i : Instruction) : Prop :=
  (0 <= reg_target i < 16) /\ (0 <= reg_src1 i < 16) /\ (0 <= reg_src2 i < 16).

(** [instr.op == OpCode.HALT]. *)
Definition is_halt (o : OpCode) : bool :=
  match o with
  | HALT => true
  | _ => false
  end.

(** The CPU once an executing [step] has stored the new condition [nc], set
    [halted] if that is Fault, and incremented the program counter: the state
    in which the opcode's own effect is then applied. *)
Definition advanced (c : CPU) (nc : CondFlag) : CPU :=
  let c1 := set_cond c nc in
  let c2 := if nc =? CondFlag_V then set_halt c1 true else c1 in
  set_registers c2 (write_reg (registers c) 15 (pc c + 1)).

Section Views.

Variable decode : Z -> Instruction.

(** The instruction the next [step] fetches and decodes. *)
Definition fetched (c : CPU) : Instruction := decode (Memory_get (memory c) (pc c)).

(** The condition test of the next [step]: [self.condition & instr.cond]
    is truthy. *)
Definition passes (c : CPU) : bool :=
  negb (Z.land (condition c) (cond (fetched c)) =? 0).

(** What the arithmetic unit returns in the next [step], if it executes. *)
Definition alu_outcome (c : CPU) : Outcome (Z * CondFlag) :=
  let i := fetched c in
  ALU_exec (op i) (reg c (reg_src1 i)) (reg c (reg_src2 i) + offset i).

(** The next [step] executes and the arithmetic unit reports Fault. *)
Definition faults (c : CPU) : bool :=
  passes c &&
  match alu_outcome c with
  | Ok (_, f) => f =? CondFlag_V
  | Raise _ => false
  end.

(** The next [step] executes a Halt instruction. *)
Definition halts (c : CPU) : bool := passes c && is_halt (op (fetched c)).

(** The CPU after [n] calls of [step]. *)
Fixpoint steps (n : nat) (c : CPU) : Outcome CPU :=
  match n with
  | O => Ok c
  | S n' =>
      match step decode c with
      | Raise e => Raise e
      | Ok (_, c1, _) => steps n' c1
      end
  end.

(** The states a CPU object can be in: built by [CPU.__init__], then moved
    by [step] and by the two stores that open [run]; the memory is a
    separate object that its owner may rewrite between calls. *)
Inductive reachable : CPU -> Prop :=
| reach_init (m : Memory) : reachable (CPU_init m)
| reach_step (c c' : CPU) (t : list Action) :
    reachable c -> step decode c = Ok (tt, c', t) -> reachable c'
| reach_run_setup (from_addr : Z) (c c' : CPU) (t : list Action) :
    reachable c -> run_setup from_addr c = Ok (tt, c', t) -> reachable c'
| reach_memory (c : CPU) (m : Memory) :
    reachable c -> reachable (set_memory c m).

End Views.

(** ** A concrete decoder and programs for the concrete runs *)

Definition field (w lo width : Z) : Z := Z.land (Z.shiftr w lo) (Z.ones width).

Definition signed_field (w lo width : Z) : Z :=
  let v := field w lo width in
  if Z.testbit v (width - 1) then v - 2 ^ width else v.

Definition opcode_of (k : Z) : OpCode :=
  match k with
  | 0 => HALT
  | 1 => LOAD
  | 2 => STORE
  | 3 => ADD
  | 5 => SUB
  | 6 => MUL
  | 7 => DIV
  | _ => OTHER k
  end.

(** Modelled from the spec: [decode] of instruction_set/instr_format.py, which
    is not among the sources.  Spec section 6 has a 32-bit word with, from the
    top, the opcode, the condition mask, the target and the two source
    registers (4 bits each) and a signed offset in the low bits (12 bits in
    section 3).  The opcode numbers are this file's choice; the theorems below
    hold for every decoder and use this one only in concrete runs. *)
Definition sample_decode (w : Z) : Instruction :=
  {| op := opcode_of (field w 28 4);
     cond := field w 24 4;
     reg_target := field w 20 4;
     reg_src1 := field w 16 4;
     reg_src2 := field w 12 4;
     offset := signed_field w 0 12 |}.

Definition encode (opc mask target src1 src2 off : Z) : Z :=
  Z.lor (Z.shiftl opc 28)
    (Z.lor (Z.shiftl mask 24)
       (Z.lor (Z.shiftl target 20)
          (Z.lor (Z.shiftl src1 16)
             (Z.lor (Z.shiftl src2 12) (Z.land off (Z.ones 12)))))).

(** ADD r1,r0,r0[5], unconditional. *)
Definition word_add_r1_5 : Z := encode 3 CondFlag_ALWAYS 1 0 0 5.
(** ADD r15,r0,r0[7], unconditional: a jump to address 7. *)
Definition word_add_r15_7 : Z := encode 3 CondFlag_ALWAYS 15 0 0 7.
(** HALT, unconditional. *)
Definition word_halt : Z := encode 0 CondFlag_ALWAYS 0 0 0 0.
(** DIV r2,r0,r0[0], unconditional: a division by zero. *)
Definition word_div_zero : Z := encode 7 CondFlag_ALWAYS 2 0 0 0.
(** ADD r1,r0,r0[5] with an empty condition mask: never executed. *)
Definition word_add_never : Z := encode 3 0 1 0 0 5.

Definition memory_of (words : list Z) : Memory :=
  fun a => if a <? 0 then 0 else nth (Z.to_nat a) words 0.

(** The end-to-end program of the spec: the addition, then Halt. *)
Definition prog_add_halt : Memory := memory_of [word_add_r1_5; word_halt].
Definition prog_jump : Memory := memory_of [word_add_r15_7].
Definition prog_div_zero : Memory := memory_of [word_div_zero; word_halt].
Definition prog_never : Memory := memory_of [word_add_never; word_halt].

(** ** More programs and states for the concrete runs *)

(** LOAD r2,r0,r0[3], unconditional. *)
Definition word_load_r2_3 : Z := encode 1 CondFlag_ALWAYS 2 0 0 3.
(** STORE r1,r0,r0[3], unconditional. *)
Definition word_store_r1_3 : Z := encode 2 CondFlag_ALWAYS 1 0 0 3.
(** A load of address 3, which holds 42. *)
Definition prog_load : Memory := memory_of [word_load_r2_3; word_halt; 0; 42].
(** A store to address 3, then a load of it. *)
Definition prog_store_load : Memory := memory_of [word_store_r1_3; word_load_r2_3; word_halt; 0].
(** A CPU about to run [prog_store_load] with 42 in register 1. *)
Definition cpu_r1_42 : CPU :=
  {| memory := prog_store_load;
     registers := ZeroRegister :: PlainRegister 42 :: replicate 14 (PlainRegister 0);
     condition := CondFlag_P;
     halted := false |}.

(** A decoder that breaks its contract: every word is an addition whose
    first source register is 16. *)
Definition decode_src1_16 (w : Z) : Instruction :=
  mkInstruction ADD CondFlag_ALWAYS 1 16 0 0.

(** A Halt at address 0. *)
Definition prog_halt : Memory := memory_of [word_halt].
(** [cpu_r1_42] after its first step. *)
Definition cpu_after_store : CPU :=
  {| memory := Memory_put prog_store_load 3 42;
     registers := ZeroRegister :: PlainRegister 42
                  :: replicate 13 (PlainRegister 0) ++ [PlainRegister 1];
     condition := CondFlag_P;
     halted := false |}.

(** ** Letter bags ([letter_bag.py]) *)

(** Python's own string methods, which [letter_bag.py] and [anagram.py]
    call and do not define: [c.isalpha()] and [c.lower()] on one character,
    [s.strip()], and the blank that [join] puts between words; and
    [sys.maxsize], the largest value that the built-in [len] returns.  They
    are taken as given, for a type [Char] of characters and a type [Letter]
    of the lowered letters kept as dictionary keys; a string is a list of
    characters and a dictionary from letters to integers is a [gmap]. *)
Class PyStr (Char Letter : Type) : Type := {
  isalpha : Char -> bool;
  lower : Char -> Letter;
  strip : list Char -> list Char;
  space : Char;
  maxsize : Z
}.

(** The exceptions [letter_bag.py] and [anagram.py] can meet: a failed
    [assert], and [len()] of an object whose [__len__] is negative
    ([ValueError]) or greater than [sys.maxsize] ([OverflowError]). *)
Inductive BagExn : Type :=
| AssertionError
| ValueError
| OverflowError.

Inductive Try (A : Type) : Type :=
| Done (a : A)
| Raised (e : BagExn).

Arguments Done {A} a.
Arguments Raised {A} e.

Section LetterBag.

Context {Char Letter : Type} `{Countable Letter} `{PyStr Char Letter}.

(** [normalize]: the letters of the phrase, lowered, in order. *)
Fixpoint normalize (phrase : list Char) : list Letter :=
  match phrase with
  | [] => []
  | i :: rest =>
      if isalpha i then lower i :: normalize rest else normalize rest
  end.

(** The attributes of a [LetterBag]; [length_] is the attribute [length]. *)
Record LetterBag : Type := mkLetterBag {
  word : list Char;
  length_ : Z;
  letters : gmap Letter Z
}.

(** One round of the counting loop of [LetterBag.__init__]. *)
Definition add_letter (counts : gmap Letter Z) (i : Letter) : gmap Letter Z :=
  match counts !! i with
  | Some n => <[i := n + 1]> counts
  | None => <[i := 1]> counts
  end.

(** [LetterBag.__init__]. *)
Definition LetterBag_init (w : list Char) : LetterBag :=
  let word := strip w in
  let normal := normalize word in
  {| word := word;
     length_ := Z.of_nat (length normal);
     letters := foldl add_letter ∅ normal |}.

(** [len(bag)]: [__len__] returns the attribute; the built-in [len] then
    refuses a negative value, and after that one that does not fit into
    [sys.maxsize]. *)
Definition len (bag : LetterBag) : Try Z :=
  if length_ bag <? 0 then Raised ValueError
  else if maxsize <? length_ bag then Raised OverflowError
  else Done (length_ bag).

(** The bags whose length [len] returns, and those whose length is more
    than [len] can return. *)
Definition len_ok (bag : LetterBag) : Prop := 0 <= length_ bag <= maxsize.
Definition too_long (bag : LetterBag) : Prop := maxsize < length_ bag.

(** [LetterBag.contains]: the loop over [other.letters] stops at the first
    letter that fails; the order of the keys does not change the answer. *)
Definition contains (self other : LetterBag) : bool :=
  forallb
    (fun item : Letter * Z =>
       match letters self !! item.1 with
       | None => false
       | Some n => negb (n <? item.2)
       end)
    (map_to_list (letters other)).

(** [LetterBag.copy]: the source builds an empty bag with [LetterBag()] and
    then overwrites its three attributes; what is returned is this. *)
Definition copy (self : LetterBag) : LetterBag :=
  {| word := word self; length_ := length_ self; letters := letters self |}.

(** One round of the loop of [LetterBag.take]. *)
Definition take_item (bag_letters : gmap Letter Z) (item : Letter * Z)
  : Try (gmap Letter Z) :=
  match bag_letters !! item.1 with
  | Some n =>
      if item.2 <=? n then Done (<[item.1 := n - item.2]> bag_letters)
      else Raised AssertionError
  | None => Raised AssertionError
  end.

Fixpoint take_items (items : list (Letter * Z)) (bag_letters : gmap Letter Z)
  : Try (gmap Letter Z) :=
  match items with
  | [] => Done bag_letters
  | item :: rest =>
      match take_item bag_letters item with
      | Done l => take_items rest l
      | Raised e => Raised e
      end
  end.

(** [LetterBag.take]. *)
Definition take (self other : LetterBag) : Try LetterBag :=
  let bag := copy self in
  match take_items (map_to_list (letters other)) (letters bag) with
  | Raised e => Raised e
  | Done new_letters =>
      match len bag with
      | Raised e => Raised e
      | Done n_bag =>
          match len other with
          | Raised e => Raised e
          | Done n_other =>
              Done {| word := word bag;
                      length_ := n_bag - n_other;
                      letters := new_letters |}
          end
      end
  end.

(** How many of letter [k] the bag holds, 0 for a letter that is no key. *)
Definition count (bag : LetterBag) (k : Letter) : Z :=
  default 0 (letters bag !! k).

(** The sum of the counts of a letter table. *)
Definition total (m : gmap Letter Z) : Z :=
  map_fold (fun _ v acc => v + acc) 0 m.

(** The invariant of the bags that [__init__] and [take] build: [length] is
    the sum of the counts, and no count is negative. *)
Definition bag_ok (bag : LetterBag) : Prop :=
  length_ bag = total (letters bag) /\
  map_Forall (fun _ v => 0 <= v) (letters bag).

End LetterBag.

Arguments LetterBag Char Letter {_ _}.

(** ** The anagram search ([anagram.py]) *)

Section Anagram.

Context {Char Letter : Type} `{Countable Letter} `{PyStr Char Letter}.

(** [sep.join(words)]. *)
Fixpoint join (sep : list Char) (words : list (list Char)) : list Char :=
  match words with
  | [] => []
  | w :: rest =>
      match rest with
      | [] => w
      | _ :: _ => w ++ sep ++ join sep rest
      end
  end.

(** [read_word_list], over the lines of the file; [in_stop_list line] is
    the test [line in config.STOP_LIST].  The [continue] it guards is the
    last statement of the loop body. *)
Definition read_word_list (in_stop_list : list Char -> bool) (f : list (list Char))
  : list (list Char) :=
  foldl
    (fun word_list line =>
       let word_list := word_list ++ [strip line] in
       if in_stop_list line then word_list else word_list)
    [] f.

(** The [for] loop of [_search] over [candidates[pos:]], threading the
    [result] list that the enclosing [search] owns.  The recursive call
    [_search(remaining, c + 1, extend_phrase)] runs over the candidates after
    the current one; its first statement, the test of [limit], is written
    out before it. *)
Fixpoint search_from (limit : Z) (candidates : list (LetterBag Char Letter))
    (letters : LetterBag Char Letter) (phrase : list (list Char))
    (result : list (list Char)) : Try (list (list Char)) :=
  match candidates with
  | [] => Done result
  | cand :: rest =>
      match
        (if contains letters cand then
           match take letters cand with
           | Raised e => Raised e
           | Done remaining =>
               let extend_phrase := phrase ++ [word cand] in
               match len remaining with
               | Raised e => Raised e
               | Done n =>
                   if n =? 0 then Done (result ++ [join [space] extend_phrase])
                   else if limit <? Z.of_nat (length result) then Done result
                   else search_from limit rest remaining extend_phrase result
               end
           end
         else Done result)
      with
      | Raised e => Raised e
      | Done result' => search_from limit rest letters phrase result'
      end
  end.

(** [_search(letters, pos, phrase)], with [candidates[pos:]] for [pos]. *)
Definition _search (limit : Z) (candidates : list (LetterBag Char Letter))
    (letters : LetterBag Char Letter) (phrase : list (list Char))
    (result : list (list Char)) : Try (list (list Char)) :=
  if limit <? Z.of_nat (length result) then Done result
  else search_from limit candidates letters phrase result.

(** [search(letters, candidates, limit, seed)]. *)
Definition search (letters : LetterBag Char Letter)
    (candidates : list (LetterBag Char Letter)) (limit : Z) (seed : list Char)
  : Try (list (list Char)) :=
  let result := [] in
  let phrase := [] in
  if negb (Z.of_nat (length seed) =? 0) then
    let phrase := phrase ++ [seed] in
    let letter_seed := LetterBag_init seed in
    match take letters letter_seed with
    | Raised e => Raised e
    | Done letters => _search limit candidates letters phrase result
    end
  else _search limit candidates letters phrase result.

(** The letters [k] that the bags of a list hold together. *)
Definition count_all (bags : list (LetterBag Char Letter)) (k : Letter) : Z :=
  foldr (fun bag s => count bag k + s) 0 bags.

(** The bags that [LetterBag(word)] builds from a word with at least one
    letter: well-formed, not empty, and with no key whose count is 0. *)
Definition word_bag (bag : LetterBag Char Letter) : Prop :=
  bag_ok bag /\ 0 < length_ bag /\ map_Forall (fun _ v => 1 <= v) (letters bag).

(** A phrase that [search] may report from [phrase], [letters] and the
    candidates: the words of [phrase], then the words of some candidates
    taken in the order of the list, joined by blanks, where the candidates
    taken hold together exactly the letters of [letters]. *)
Definition built_from (candidates : list (LetterBag Char Letter))
    (letters : LetterBag Char Letter) (phrase : list (list Char))
    (s : list Char) : Prop :=
  exists sub : list (LetterBag Char Letter),
    sublist sub candidates /\
    sub <> [] /\
    s = join [space] (phrase ++ (word <$> sub)) /\
    forall k : Letter, count letters k = count_all sub k.

End Anagram.

(** How often [k] occurs in a list of letters. *)
Definition occurrences {Letter : Type} `{EqDecision Letter} (l : list Letter) (k : Letter) : nat :=
  count_occ (fun x y => decide (x = y)) l k.


(** *** The string methods on ASCII text, for the concrete runs

    Characters and letters are code points; a letter is one of A-Z, a-z,
    lowering adds 32 to A-Z, and [strip] drops the blanks, tabs, line ends
    and separators (9-13, 28-32) at both ends; [sys.maxsize] is that of a
    64-bit build, 2^63 - 1. *)
Definition ascii_isalpha (c : Z) : bool :=
  ((65 <=? c) && (c <=? 90)) || ((97 <=? c) && (c <=? 122)).
Definition ascii_lower (c : Z) : Z :=
  if (65 <=? c) && (c <=? 90) then c + 32 else c.
Definition ascii_isspace (c : Z) : bool :=
  ((9 <=? c) && (c <=? 13)) || ((28 <=? c) && (c <=? 32)).
Fixpoint lstrip (s : list Z) : list Z :=
  match s with
  | [] => []
  | c :: rest => if ascii_isspace c then lstrip rest else s
  end.
Definition ascii_strip (s : list Z) : list Z := rev (lstrip (rev (lstrip s))).

#[export] Instance ascii_text : PyStr Z Z :=
  {| isalpha := ascii_isalpha; lower := ascii_lower; strip := ascii_strip; space := 32;
     maxsize := 9223372036854775807 |}.

(** The texts Eat (between two blanks), tea, at, e and ax. *)
Definition text_eat : list Z := [32; 69; 97; 116; 32].
Definition text_tea : list Z := [116; 101; 97].
Definition text_at : list Z := [97; 116].
Definition text_e : list Z := [101].
Definition text_ax : list Z := [97; 120].
Definition text_ate : list Z := [97; 116; 101].

(** The candidates tea, at and e. *)
Definition sample_candidates : list (LetterBag Z Z) :=
  [LetterBag_init text_tea; LetterBag_init text_at; LetterBag_init text_e].
(** Three candidates that each hold exactly the letters of Eat. *)
Definition exact_candidates : list (LetterBag Z Z) :=
  [LetterBag_init text_tea; LetterBag_init text_eat; LetterBag_init text_ate].
(** A bag whose length is one more than [sys.maxsize], as code that sets the
    attributes itself can build it. *)
Definition bag_too_long : LetterBag Z Z :=
  {| word := text_e; length_ := 9223372036854775808;
     letters := {[ 101 := 9223372036854775808 ]} |}.


(** ** The register file *)

Lemma register_file_length (rs : list Register) :
  register_file rs -> length rs = 16%nat.
Proof.
  intros (vs & Hlen & ->). cbn. rewrite length_fmap. lia.
Qed.

Lemma register_file_init (m : Memory) : register_file (registers (CPU_init m)).
Proof.
  exists (replicate 15 0). split; reflexivity.
Qed.

Lemma py_index_in_range {A : Type} (l : list A) (i : Z) :
  length l = 16%nat -> 0 <= i < 16 -> py_index l i = Ok (Z.to_nat i).
Proof.
  intros Hlen Hi. unfold py_index. rewrite Hlen.
  replace (0 <=? i) with true by (symmetry; apply Z.leb_le; lia).
  replace (i <? Z.of_nat 16) with true by (symmetry; apply Z.ltb_lt; lia).
  reflexivity.
Qed.

Lemma register_file_lookup (rs : list Register) (i : Z) :
  register_file rs -> 0 <= i < 16 -> exists r, rs !! Z.to_nat i = Some r.
Proof.
  intros Hrs Hi. apply register_file_length in Hrs.
  destruct (lookup_lt_is_Some_2 rs (Z.to_nat i)) as [r Hr]; [lia | eauto].
Qed.

Lemma register_file_pc (rs : list Register) :
  register_file rs -> exists v, rs !! 15%nat = Some (PlainRegister v).
Proof.
  intros (vs & Hlen & ->).
  destruct (lookup_lt_is_Some_2 vs 14) as [v Hv]; [lia |].
  exists v. change ((PlainRegister <$> vs) !! 14%nat = Some (PlainRegister v)).
  rewrite list_lookup_fmap, Hv. reflexivity.
Qed.

Lemma write_reg_file (rs : list Register) (i v : Z) :
  register_file rs -> register_file (write_reg rs i v).
Proof.
  intros (vs & Hlen & ->). unfold write_reg.
  destruct (Z.to_nat i) as [|n]; simpl.
  - exists vs. split; [assumption | reflexivity].
  - rewrite list_lookup_fmap. destruct (vs !! n) as [v0|] eqn:Hn; simpl.
    + exists (<[n := v]> vs). split.
      * rewrite length_insert. assumption.
      * rewrite list_fmap_insert. reflexivity.
    + exists vs. split; [assumption | reflexivity].
Qed.

Lemma write_reg_lookup_ne (rs : list Register) (i v : Z) (n : nat) :
  n <> Z.to_nat i -> write_reg rs i v !! n = rs !! n.
Proof.
  intros Hne. unfold write_reg.
  destruct (rs !! Z.to_nat i); [| reflexivity].
  apply list_lookup_insert_ne. congruence.
Qed.

Lemma write_reg_lookup_plain (rs : list Register) (i v : Z) :
  register_file rs -> 1 <= i < 16 ->
  write_reg rs i v !! Z.to_nat i = Some (PlainRegister v).
Proof.
  intros (vs & Hlen & ->) Hi. unfold write_reg.
  destruct (Z.to_nat i) as [|n] eqn:Hn; [lia |]. simpl.
  destruct (lookup_lt_is_Some_2 vs n) as [v0 Hv0]; [lia |].
  rewrite list_lookup_fmap, Hv0. simpl.
  rewrite list_lookup_insert_eq; [reflexivity |].
  rewrite length_fmap. lia.
Qed.

Lemma write_reg_zero (rs : list Register) (v : Z) :
  register_file rs -> write_reg rs 0 v = rs.
Proof.
  intros (vs & Hlen & ->). reflexivity.
Qed.

Lemma reg_zero (c : CPU) : register_file (registers c) -> reg c 0 = 0.
Proof.
  intros (vs & Hlen & Hrs). unfold reg. rewrite Hrs. reflexivity.
Qed.

Lemma reg_write_same (c : CPU) (rs : list Register) (i v : Z) :
  register_file rs -> 1 <= i < 16 ->
  reg (set_registers c (write_reg rs i v)) i = v.
Proof.
  intros Hrs Hi. unfold reg. simpl.
  rewrite write_reg_lookup_plain by assumption. reflexivity.
Qed.

Lemma reg_write_other (c : CPU) (rs : list Register) (i j v : Z) :
  0 <= i -> 0 <= j -> i <> j ->
  reg (set_registers c (write_reg rs i v)) j = reg (set_registers c rs) j.
Proof.
  intros Hi Hj Hne. unfold reg. simpl.
  rewrite write_reg_lookup_ne by lia. reflexivity.
Qed.

(** ** The primitive calls on a well-formed register file *)

Lemma reg_get_ok (c : CPU) (i : Z) :
  register_file (registers c) -> 0 <= i < 16 ->
  reg_get i c = Ok (reg c i, c, [RegGet i]).
Proof.
  intros Hrs Hi. unfold reg_get, reg.
  rewrite py_index_in_range by (auto using register_file_length).
  destruct (register_file_lookup _ i Hrs Hi) as [r ->]. reflexivity.
Qed.

Lemma reg_put_ok (c : CPU) (i v : Z) :
  register_file (registers c) -> 0 <= i < 16 ->
  reg_put i v c = Ok (tt, set_registers c (write_reg (registers c) i v), [RegPut i v]).
Proof.
  intros Hrs Hi. unfold reg_put, write_reg.
  rewrite py_index_in_range by (auto using register_file_length).
  destruct (register_file_lookup _ i Hrs Hi) as [r ->]. reflexivity.
Qed.

(** ** Running a method body call by call *)

Lemma M_bind_ok {A B : Type} (m : M A) (f : A -> M B) (c c1 : CPU) (a : A) (t1 : list Action) :
  m c = Ok (a, c1, t1) ->
  M_bind m f c =
  match f a c1 with
  | Raise e => Raise e
  | Ok (b, c2, t2) => Ok (b, c2, t1 ++ t2)
  end.
Proof.
  intros H. unfold M_bind. rewrite H. reflexivity.
Qed.

Ltac regs_ok := first [eassumption | apply write_reg_file; eassumption].

(** Runs the first call of a sequence whose register indices are in range. *)
Ltac exec_call :=
  first
    [ erewrite M_bind_ok by (apply reg_get_ok; [regs_ok | lia])
    | erewrite M_bind_ok by (apply reg_put_ok; [regs_ok | lia])
    | erewrite M_bind_ok by reflexivity ];
  cbv beta.

Ltac last_put :=
  rewrite reg_put_ok by (first [assumption | apply write_reg_file; assumption | lia]);
  reflexivity.

Section StepLemmas.

Variable decode : Z -> Instruction.

(** A step whose condition test fails: fetch, decode, notify, then only the
    program counter moves. *)
Lemma step_skip (c : CPU) :
  register_file (registers c) ->
  passes decode c = false ->
  step decode c =
  Ok (tt, set_registers c (write_reg (registers c) 15 (pc c + 1)),
      [RegGet 15; MemGet (pc c);
       NotifyAll (mkCPUStep c (Memory_get (memory c) (pc c)) (pc c) (fetched decode c));
       RegGet 15; RegPut 15 (pc c + 1)]).
Proof.
  intros Hrs Hp. unfold step.
  do 5 exec_call.
  unfold passes, fetched, pc in Hp. cbv zeta. rewrite Hp.
  exec_call. last_put.
Qed.

(** A step whose condition test passes, in full: the state it leaves and the
    actions it performs, in the order of the source. *)
Lemma step_exec (c : CPU) (res : Z) (nc : CondFlag) :
  register_file (registers c) ->
  in_range (fetched decode c) ->
  passes decode c = true ->
  alu_outcome decode c = Ok (res, nc) ->
  let i := fetched decode c in
  let c3 := advanced c nc in
  step decode c =
  Ok (tt,
      match op i with
      | HALT => set_halt c3 true
      | LOAD => set_registers c3 (write_reg (registers c3) (reg_target i) (Memory_get (memory c) res))
      | STORE => set_memory c3 (Memory_put (memory c) res (reg c3 (reg_target i)))
      | _ => set_registers c3 (write_reg (registers c3) (reg_target i) res)
      end,
      [RegGet 15; MemGet (pc c);
       NotifyAll (mkCPUStep c (Memory_get (memory c) (pc c)) (pc c) i);
       RegGet (reg_src1 i); RegGet (reg_src2 i); SetCondition nc]
      ++ (if nc =? CondFlag_V then [SetHalted true] else [])
      ++ [RegGet 15; RegPut 15 (pc c + 1)]
      ++ match op i with
         | HALT => [SetHalted true]
         | LOAD => [MemGet res; RegPut (reg_target i) (Memory_get (memory c) res)]
         | STORE => [RegGet (reg_target i); MemPut res (reg c3 (reg_target i))]
         | _ => [RegPut (reg_target i) res]
         end).
Proof.
  intros Hrs (Ht & Hs1 & Hs2) Hp Halu i c3. unfold step.
  unfold passes, alu_outcome in *. unfold fetched, pc in *.
  do 5 exec_call. cbv zeta. rewrite Hp.
  do 2 exec_call.
  erewrite M_bind_ok by (unfold alu_exec; rewrite Halu; reflexivity).
  cbv beta iota zeta.
  exec_call.
  subst i c3. unfold advanced, pc.
  destruct (nc =? CondFlag_V); do 3 exec_call;
    destruct (op (decode (Memory_get (memory c) (reg c 15)))).
  all: try last_put.
  all: try reflexivity.
  all: exec_call.
  all: try last_put.
  all: reflexivity.
Qed.

End StepLemmas.

(** ** The arithmetic unit *)

Lemma ALU_try_raises (o : OpCode) (x y : Z) :
  (exists e, ALU_exec_try o x y = Raise e) <->
  ((o = DIV /\ y = 0) \/ exists k, o = OTHER k).
Proof.
  unfold ALU_exec_try, ALU_apply. split.
  - intros [e He]. destruct o; simpl in He; try discriminate.
    + destruct (Z.eqb_spec y 0); [left; auto | discriminate].
    + right. eauto.
  - intros [[-> ->] | [k ->]]; simpl; eauto.
Qed.

Lemma ALU_exec_total (o : OpCode) (x y : Z) :
  exists r f, ALU_exec o x y = Ok (r, f).
Proof.
  unfold ALU_exec. destruct (ALU_exec_try o x y) as [[r f]|e]; eauto.
Qed.

(** The flag the unit returns is one of the four runtime flags. *)
Lemma ALU_exec_flag (o : OpCode) (x y r : Z) (f : CondFlag) :
  ALU_exec o x y = Ok (r, f) ->
  In f [CondFlag_Z; CondFlag_M; CondFlag_P; CondFlag_V].
Proof.
  unfold ALU_exec, ALU_exec_try.
  destruct (ALU_apply o x y) as [sol|e]; intros [= <- <-]; simpl.
  - destruct (sol =? 0); [tauto |]. destruct (sol <? 0); tauto.
  - tauto.
Qed.

(** Fault comes with result 0, and only from a division by zero or from an
    opcode outside the table. *)
Lemma ALU_exec_fault (o : OpCode) (x y r : Z) :
  ALU_exec o x y = Ok (r, CondFlag_V) ->
  r = 0 /\ is_halt o = false /\ o <> LOAD /\ o <> STORE /\
  ((o = DIV /\ y = 0) \/ exists k, o = OTHER k).
Proof.
  unfold ALU_exec. destruct (ALU_exec_try o x y) as [[r0 f0]|e] eqn:Htry.
  - intros [= -> ->]. exfalso. unfold ALU_exec_try in Htry.
    destruct (ALU_apply o x y) as [sol|]; [| discriminate].
    injection Htry as _ Hf.
    destruct (sol =? 0); [discriminate |]. destruct (sol <? 0); discriminate.
  - intros [= <-]. split; [reflexivity |].
    destruct (proj1 (ALU_try_raises o x y) (ex_intro _ e Htry)) as [[-> _] | [k ->]].
    + repeat split; try discriminate. left. split; [reflexivity |].
      unfold ALU_exec_try, ALU_apply in Htry. simpl in Htry.
      destruct (Z.eqb_spec y 0); [assumption | discriminate].
    + repeat split; try discriminate. right. eauto.
Qed.

(** C5: for every integer x, [exec(DIV, x, 0)] returns [(0, V)]; every
    failure inside the unit (which is a division by zero or an opcode that is
    no key of the table, and nothing else) is returned as [(0, V)]; and for
    every opcode and every pair of integers the unit returns a value, it
    never raises. *)
Theorem ALU_exec_never_raises :
  (forall x : Z, ALU_exec DIV x 0 = Ok (0, CondFlag_V)) /\
  (forall (o : OpCode) (x y : Z) (e : PyExn),
      ALU_exec_try o x y = Raise e -> ALU_exec o x y = Ok (0, CondFlag_V)) /\
  (forall (o : OpCode) (x y : Z),
      (exists e, ALU_exec_try o x y = Raise e) <->
      ((o = DIV /\ y = 0) \/ exists k, o = OTHER k)) /\
  (forall (o : OpCode) (x y : Z), exists r f, ALU_exec o x y = Ok (r, f)).
Proof.
  split; [| split; [| split]].
  - intros x. reflexivity.
  - intros o x y e He. unfold ALU_exec. rewrite He. reflexivity.
  - exact ALU_try_raises.
  - exact ALU_exec_total.
Qed.

(** C6: for each of Add, Subtract, Multiply, Load and Store and every pair
    of integers, and for Divide with every divisor other than 0, the selected
    operation computes a value [sol] and the unit returns [sol] with the flag
    Zero when [sol = 0], Minus when [sol < 0] and Plus when [sol > 0]; [sol]
    is the sum, difference or product of the operands, the sum for Load and
    Store, and for Divide the floor of the quotient. *)
Theorem ALU_exec_result_and_flag (o : OpCode) (x y : Z) :
  In o [ADD; SUB; MUL; DIV; LOAD; STORE] ->
  (o = DIV -> y <> 0) ->
  exists (sol : Z) (flag : CondFlag),
    ALU_apply o x y = Ok sol /\
    ALU_exec o x y = Ok (sol, flag) /\
    (sol = 0 -> flag = CondFlag_Z) /\
    (sol < 0 -> flag = CondFlag_M) /\
    (0 < sol -> flag = CondFlag_P) /\
    match o with
    | ADD | LOAD | STORE => sol = x + y
    | SUB => sol = x - y
    | MUL => sol = x * y
    | DIV =>
        sol = x / y /\
        (0 < y -> y * sol <= x < y * sol + y) /\
        (y < 0 -> y * sol + y < x <= y * sol)
    | _ => False
    end.
Proof.
  intros Ho Hdiv.
  assert (Happ : exists sol : Z,
             ALU_apply o x y = Ok sol /\
             match o with
             | ADD | LOAD | STORE => sol = x + y
             | SUB => sol = x - y
             | MUL => sol = x * y
             | DIV =>
                 sol = x / y /\
                 (0 < y -> y * sol <= x < y * sol + y) /\
                 (y < 0 -> y * sol + y < x <= y * sol)
             | _ => False
             end).
  { simpl in Ho.
    destruct Ho as [<-|[<-|[<-|[<-|[<-|[<-|[]]]]]]];
      try (eexists; split; [reflexivity | reflexivity]).
    assert (Hy : y <> 0) by (apply Hdiv; reflexivity).
    exists (x / y). split.
    - unfold ALU_apply. simpl. destruct (Z.eqb_spec y 0); [contradiction | reflexivity].
    - pose proof (Z.div_mod x y Hy) as Hdm.
      split; [reflexivity |]. split; intros Hsign.
      + pose proof (Z.mod_pos_bound x y Hsign). lia.
      + pose proof (Z.mod_neg_bound x y Hsign). lia. }
  destruct Happ as (sol & Happ & Hval).
  exists sol. eexists. split; [exact Happ |].
  split; [unfold ALU_exec, ALU_exec_try; rewrite Happ; reflexivity |].
  split; [| split; [| split]].
  - intros ->. reflexivity.
  - intros Hneg. destruct (Z.eqb_spec sol 0); [lia |].
    destruct (Z.ltb_spec sol 0); [reflexivity | lia].
  - intros Hpos. destruct (Z.eqb_spec sol 0); [lia |].
    destruct (Z.ltb_spec sol 0); [lia | reflexivity].
  - exact Hval.
Qed.

(** [ALU_exec_result_and_flag] on one pair of operands for each of the six
    opcodes: 2 + 3, 2 - 3, 0 * 7, -7 // 2 (which is -4), and the address sums
    4 + -4 and 1 + 2. *)
Lemma ALU_exec_result_and_flag_witness :
  ALU_exec ADD 2 3 = Ok (5, CondFlag_P) /\
  ALU_exec SUB 2 3 = Ok (-1, CondFlag_M) /\
  ALU_exec MUL 0 7 = Ok (0, CondFlag_Z) /\
  ALU_exec DIV (-7) 2 = Ok (-4, CondFlag_M) /\
  ALU_exec LOAD 4 (-4) = Ok (0, CondFlag_Z) /\
  ALU_exec STORE 1 2 = Ok (3, CondFlag_P).
Proof.
  split; [| split; [| split; [| split; [| split]]]].
  - destruct (ALU_exec_result_and_flag ADD 2 3) as (sol & flag & _ & Hex & _ & _ & Hp & ->);
      [simpl; tauto | discriminate |].
    rewrite Hex, Hp by lia. reflexivity.
  - destruct (ALU_exec_result_and_flag SUB 2 3) as (sol & flag & _ & Hex & _ & Hm & _ & ->);
      [simpl; tauto | discriminate |].
    rewrite Hex, Hm by lia. reflexivity.
  - destruct (ALU_exec_result_and_flag MUL 0 7) as (sol & flag & _ & Hex & Hz & _ & _ & ->);
      [simpl; tauto | discriminate |].
    rewrite Hex, Hz by lia. reflexivity.
  - destruct (ALU_exec_result_and_flag DIV (-7) 2)
      as (sol & flag & _ & Hex & _ & Hm & _ & -> & _);
      [simpl; tauto | intros _; discriminate |].
    rewrite Hex, Hm by (vm_compute; reflexivity). reflexivity.
  - destruct (ALU_exec_result_and_flag LOAD 4 (-4)) as (sol & flag & _ & Hex & Hz & _ & _ & ->);
      [simpl; tauto | discriminate |].
    rewrite Hex, Hz by lia. reflexivity.
  - destruct (ALU_exec_result_and_flag STORE 1 2) as (sol & flag & _ & Hex & _ & _ & Hp & ->);
      [simpl; tauto | discriminate |].
    rewrite Hex, Hp by lia. reflexivity.
Defined.

(** ** One step *)

Section Step.

Variable decode : Z -> Instruction.

Lemma run_loop_halted (fuel : nat) (c : CPU) :
  halted c = true -> run_loop decode fuel c = Some (Ok (tt, c, [])).
Proof.
  intros Hh. destruct fuel; simpl; rewrite Hh; reflexivity.
Qed.

Lemma run_loop_step (fuel : nat) (c c1 : CPU) (t1 : list Action) :
  halted c = false ->
  step decode c = Ok (tt, c1, t1) ->
  run_loop decode (S fuel) c =
  match run_loop decode fuel c1 with
  | None => None
  | Some (Raise e) => Some (Raise e)
  | Some (Ok (_, c2, t2)) => Some (Ok (tt, c2, t1 ++ t2))
  end.
Proof.
  intros Hh Hst. simpl. rewrite Hh, Hst. reflexivity.
Qed.

Lemma passes_true (c : CPU) :
  passes decode c = true <-> Z.land (condition c) (cond (fetched decode c)) <> 0.
Proof.
  unfold passes. rewrite negb_true_iff, Z.eqb_neq. reflexivity.
Qed.

Lemma passes_false (c : CPU) :
  passes decode c = false <-> Z.land (condition c) (cond (fetched decode c)) = 0.
Proof.
  unfold passes. rewrite negb_false_iff, Z.eqb_eq. reflexivity.
Qed.

Lemma alu_outcome_total (c : CPU) :
  exists res nc, alu_outcome decode c = Ok (res, nc).
Proof.
  apply ALU_exec_total.
Qed.

(** With register indices in range a step returns; it keeps the shape of the
    register file and sets [halted] exactly on an executed Halt or Fault. *)
Lemma step_total (c : CPU) :
  register_file (registers c) ->
  in_range (fetched decode c) ->
  exists c' t,
    step decode c = Ok (tt, c', t) /\
    register_file (registers c') /\
    halted c' = halted c || (halts decode c || faults decode c) /\
    (passes decode c = false -> condition c' = condition c) /\
    (passes decode c = true -> exists res, alu_outcome decode c = Ok (res, condition c')).
Proof.
  intros Hrs Hin. destruct (passes decode c) eqn:Hp.
  - destruct (alu_outcome_total c) as (res & nc & Halu).
    pose proof (step_exec decode c res nc Hrs Hin Hp Halu) as Hstep.
    cbv zeta in Hstep. rewrite Hstep. eexists _, _. split; [reflexivity |].
    unfold halts, faults. rewrite Hp, Halu.
    assert (Hadv : register_file (registers (advanced c nc)))
      by (apply write_reg_file; assumption).
    split; [| split; [| split; [discriminate |]]].
    + destruct (op (fetched decode c)); simpl;
        first [ assumption | apply write_reg_file; assumption ].
    + clear Hstep. unfold advanced.
      destruct (op (fetched decode c)); destruct (nc =? CondFlag_V); simpl;
        destruct (halted c); reflexivity.
    + intros _. exists res.
      destruct (op (fetched decode c)); unfold advanced;
        destruct (nc =? CondFlag_V); reflexivity.
  - rewrite (step_skip decode c Hrs Hp). eexists _, _. split; [reflexivity |].
    unfold halts, faults. rewrite Hp. simpl.
    split; [apply write_reg_file; assumption |].
    split; [destruct (halted c); reflexivity |].
    split; [reflexivity | discriminate].
Qed.

(** C4: a step whose condition test yields zero returns, leaves every
    register other than the program counter, the memory, the condition and
    [halted] as they were, and increments the program counter by exactly 1. *)
Theorem step_condition_fails_frame (c : CPU) :
  register_file (registers c) ->
  Z.land (condition c) (cond (fetched decode c)) = 0 ->
  exists c' t,
    step decode c = Ok (tt, c', t) /\
    (forall n : nat, n <> 15%nat -> registers c' !! n = registers c !! n) /\
    (forall i : Z, 0 <= i < 15 -> reg c' i = reg c i) /\
    memory c' = memory c /\
    condition c' = condition c /\
    halted c' = halted c /\
    pc c' = pc c + 1.
Proof.
  intros Hrs Hz. apply passes_false in Hz.
  rewrite (step_skip decode c Hrs Hz). eexists _, _. split; [reflexivity |].
  split; [| split; [| split; [| split; [| split]]]]; try reflexivity.
  - intros n Hn. simpl. apply write_reg_lookup_ne. exact Hn.
  - intros i Hi. unfold reg. simpl. rewrite write_reg_lookup_ne by lia. reflexivity.
  - unfold pc at 1. apply reg_write_same; [assumption | lia].
Qed.

(** C1 (amended): in a step whose condition test passes, the program counter
    is incremented (get()+1 written to register 15) once the operands are
    read, the arithmetic unit has answered and the condition (and [halted],
    on Fault) is stored; the opcode's own effect comes after it, as the last
    action of the step.  So the target write of an arithmetic opcode lands
    on the register file that already holds the incremented counter. *)
Theorem step_order (c : CPU) (res : Z) (nc : CondFlag) :
  register_file (registers c) ->
  in_range (fetched decode c) ->
  Z.land (condition c) (cond (fetched decode c)) <> 0 ->
  alu_outcome decode c = Ok (res, nc) ->
  exists c',
    step decode c =
    Ok (tt, c',
        [RegGet 15; MemGet (pc c);
         NotifyAll (mkCPUStep c (Memory_get (memory c) (pc c)) (pc c) (fetched decode c));
         RegGet (reg_src1 (fetched decode c)); RegGet (reg_src2 (fetched decode c));
         SetCondition nc]
        ++ (if nc =? CondFlag_V then [SetHalted true] else [])
        ++ [RegGet 15; RegPut 15 (pc c + 1)]
        ++ match op (fetched decode c) with
           | HALT => [SetHalted true]
           | LOAD => [MemGet res;
                      RegPut (reg_target (fetched decode c)) (Memory_get (memory c) res)]
           | STORE => [RegGet (reg_target (fetched decode c));
                       MemPut res (reg (advanced c nc) (reg_target (fetched decode c)))]
           | _ => [RegPut (reg_target (fetched decode c)) res]
           end) /\
    (is_halt (op (fetched decode c)) = false ->
     op (fetched decode c) <> LOAD ->
     op (fetched decode c) <> STORE ->
     registers c' =
     write_reg (write_reg (registers c) 15 (pc c + 1)) (reg_target (fetched decode c)) res).
Proof.
  intros Hrs Hin Hp Halu. apply passes_true in Hp.
  pose proof (step_exec decode c res nc Hrs Hin Hp Halu) as Hstep.
  cbv zeta in Hstep. rewrite Hstep. eexists. split; [reflexivity |].
  intros Hh Hl Hs.
  destruct (op (fetched decode c)); first [discriminate | congruence | reflexivity].
Qed.

(** C7: when an executed step gets Fault from the arithmetic unit, the step
    returns; the condition is Fault and [halted] is true; the result is 0;
    the program counter has been incremented and the target register written
    (in that order), while memory is untouched; and a [run] loop that made
    this step stops there without raising. *)
Theorem step_fault (c : CPU) (res : Z) :
  register_file (registers c) ->
  in_range (fetched decode c) ->
  Z.land (condition c) (cond (fetched decode c)) <> 0 ->
  alu_outcome decode c = Ok (res, CondFlag_V) ->
  exists c' t,
    step decode c = Ok (tt, c', t) /\
    condition c' = CondFlag_V /\
    halted c' = true /\
    res = 0 /\
    registers c' =
      write_reg (write_reg (registers c) 15 (pc c + 1)) (reg_target (fetched decode c)) res /\
    memory c' = memory c /\
    In (SetCondition CondFlag_V) t /\
    In (SetHalted true) t /\
    In (RegPut 15 (pc c + 1)) t /\
    In (RegPut (reg_target (fetched decode c)) res) t /\
    (forall fuel : nat,
        halted c = false -> run_loop decode (S fuel) c = Some (Ok (tt, c', t))).
Proof.
  intros Hrs Hin Hp Halu. apply passes_true in Hp.
  pose proof (step_exec decode c res _ Hrs Hin Hp Halu) as Hstep.
  cbv zeta in Hstep.
  destruct (ALU_exec_fault _ _ _ _ Halu) as (Hres & Hh & Hl & Hs & _).
  assert (Hc' : exists c' t,
             step decode c = Ok (tt, c', t) /\
             c' = set_registers (advanced c CondFlag_V)
                    (write_reg (registers (advanced c CondFlag_V))
                       (reg_target (fetched decode c)) res) /\
             t = [RegGet 15; MemGet (pc c);
                  NotifyAll (mkCPUStep c (Memory_get (memory c) (pc c)) (pc c)
                               (fetched decode c));
                  RegGet (reg_src1 (fetched decode c));
                  RegGet (reg_src2 (fetched decode c));
                  SetCondition CondFlag_V; SetHalted true;
                  RegGet 15; RegPut 15 (pc c + 1);
                  RegPut (reg_target (fetched decode c)) res]).
  { rewrite Hstep. eexists _, _. split; [reflexivity |].
    destruct (op (fetched decode c)); first [discriminate | congruence | split; reflexivity]. }
  destruct Hc' as (c' & t & Hst & -> & ->).
  eexists _, _. split; [exact Hst |].
  repeat (split; [first [reflexivity | assumption | simpl; tauto] |]).
  intros fuel Hnh. rewrite (run_loop_step fuel _ _ _ Hnh Hst).
  rewrite run_loop_halted by reflexivity. reflexivity.
Qed.

End Step.

(** ** The run loop *)

Section Run.

Variable decode : Z -> Instruction.

(** The decoder's contract: every word decodes to register indices 0..15. *)
Hypothesis decode_in_range : forall w : Z, in_range (decode w).

Lemma run_setup_ok (c : CPU) (from_addr : Z) :
  register_file (registers c) ->
  run_setup from_addr c =
  Ok (tt, set_registers (set_halt c false) (write_reg (registers c) 15 from_addr),
      [SetHalted false; RegPut 15 from_addr]).
Proof.
  intros Hrs. unfold run_setup. exec_call. last_put.
Qed.

Lemma steps_total (n : nat) (c : CPU) :
  register_file (registers c) ->
  exists cn, steps decode n c = Ok cn /\ register_file (registers cn).
Proof using decode_in_range.
  revert c. induction n as [|n IH]; intros c Hrs; simpl.
  - eauto.
  - destruct (step_total decode c Hrs (decode_in_range _)) as (c1 & t1 & Hst & Hrs1 & _).
    rewrite Hst. apply IH. exact Hrs1.
Qed.

(** [n + 1] steps are [n] steps and one more. *)
Lemma steps_snoc (n : nat) (c : CPU) :
  steps decode (S n) c =
  match steps decode n c with
  | Raise e => Raise e
  | Ok cn =>
      match step decode cn with
      | Raise e => Raise e
      | Ok (_, c', _) => Ok c'
      end
  end.
Proof.
  revert c. induction n as [|n IH]; intros c.
  - simpl. destruct (step decode c) as [[[u c1] t1]|e]; reflexivity.
  - change (steps decode (S (S n)) c)
      with (match step decode c with
            | Raise e => Raise e
            | Ok (_, c1, _) => steps decode (S n) c1
            end).
    destruct (step decode c) as [[[u c1] t1]|e] eqn:Hst.
    + rewrite IH. simpl. rewrite Hst. reflexivity.
    + simpl. rewrite Hst. reflexivity.
Qed.

(** What the loop does from a state that is not halted: it never raises; it
    stops after the first step that executes a Halt or gets Fault, and is
    still running while there was none. *)
Lemma run_loop_spec (fuel : nat) (c : CPU) :
  register_file (registers c) ->
  halted c = false ->
  match run_loop decode fuel c with
  | None =>
      forall n cn, (n < fuel)%nat -> steps decode n c = Ok cn ->
                   halts decode cn || faults decode cn = false
  | Some (Raise e) => False
  | Some (Ok (_, c', t)) =>
      halted c' = true /\
      exists n cn,
        (n < fuel)%nat /\
        steps decode n c = Ok cn /\
        halts decode cn || faults decode cn = true /\
        steps decode (S n) c = Ok c' /\
        forall k ck, (k < n)%nat -> steps decode k c = Ok ck ->
                     halts decode ck || faults decode ck = false
  end.
Proof using decode_in_range.
  revert c. induction fuel as [|fuel IH]; intros c Hrs Hh.
  - simpl. rewrite Hh. intros n cn Hn. lia.
  - destruct (step_total decode c Hrs (decode_in_range _))
      as (c1 & t1 & Hst & Hrs1 & Hh1 & _).
    rewrite Hh in Hh1. simpl in Hh1.
    rewrite (run_loop_step decode fuel c c1 t1 Hh Hst).
    destruct (halts decode c || faults decode c) eqn:Hstop.
    + rewrite (run_loop_halted decode fuel c1 Hh1).
      split; [exact Hh1 |]. exists 0%nat, c.
      split; [lia |]. split; [reflexivity |]. split; [exact Hstop |].
      split; [simpl; rewrite Hst; reflexivity |].
      intros k ck Hk. lia.
    + specialize (IH c1 Hrs1 Hh1).
      destruct (run_loop decode fuel c1) as [[[[u c2] t2]|e]|].
      * destruct IH as (Hh2 & n & cn & Hn & Hsn & Hstopn & Hsn' & Hmin).
        split; [exact Hh2 |]. exists (S n), cn.
        split; [lia |].
        split; [simpl; rewrite Hst; exact Hsn |].
        split; [exact Hstopn |].
        split.
        { change (steps decode (S (S n)) c)
            with (match step decode c with
                  | Raise e => Raise e
                  | Ok (_, c1, _) => steps decode (S n) c1
                  end).
          rewrite Hst. exact Hsn'. }
        intros [|k] ck Hk Hsk.
        -- simpl in Hsk. injection Hsk as <-. exact Hstop.
        -- simpl in Hsk. rewrite Hst in Hsk. apply (Hmin k ck); [lia | exact Hsk].
      * exact IH.
      * intros [|n] cn Hn Hsn.
        -- simpl in Hsn. injection Hsn as <-. exact Hstop.
        -- simpl in Hsn. rewrite Hst in Hsn. apply (IH n cn); [lia | exact Hsn].
Qed.

(** C8: [run(from_addr)] first stores [halted = False] and writes
    [from_addr] to register 15, then steps.  Every step returns, and sets
    [halted] exactly when it executes a Halt or gets Fault from the
    arithmetic unit.  So [run] returns, halted, as soon as a step executes a
    Halt or faults; it returns only after such a step, the first one; it
    never raises; and with no such step it keeps running. *)
Theorem run_halts_exactly (c : CPU) (from_addr : Z) :
  register_file (registers c) ->
  exists c0,
    run_setup from_addr c = Ok (tt, c0, [SetHalted false; RegPut 15 from_addr]) /\
    halted c0 = false /\
    pc c0 = from_addr /\
    (forall n, exists cn, steps decode n c0 = Ok cn) /\
    (forall n cn cn',
        steps decode n c0 = Ok cn -> steps decode (S n) c0 = Ok cn' ->
        halted cn' = halted cn || (halts decode cn || faults decode cn)) /\
    (forall n cn,
        steps decode n c0 = Ok cn ->
        halts decode cn || faults decode cn = true ->
        forall fuel, (n < fuel)%nat ->
        exists c' t, run decode fuel from_addr c = Some (Ok (tt, c', t)) /\
                     halted c' = true) /\
    (forall fuel c' t,
        run decode fuel from_addr c = Some (Ok (tt, c', t)) ->
        halted c' = true /\
        exists n cn,
          (n < fuel)%nat /\
          steps decode n c0 = Ok cn /\
          halts decode cn || faults decode cn = true /\
          steps decode (S n) c0 = Ok c' /\
          forall k ck, (k < n)%nat -> steps decode k c0 = Ok ck ->
                       halts decode ck || faults decode ck = false) /\
    (forall fuel e, run decode fuel from_addr c <> Some (Raise e)) /\
    ((forall n cn, steps decode n c0 = Ok cn ->
                   halts decode cn || faults decode cn = false) ->
     forall fuel, run decode fuel from_addr c = None).
Proof using decode_in_range.
  intros Hrs.
  set (c0 := set_registers (set_halt c false) (write_reg (registers c) 15 from_addr)).
  assert (Hrs0 : register_file (registers c0)) by (apply write_reg_file; exact Hrs).
  assert (Hh0 : halted c0 = false) by reflexivity.
  assert (Hrun : forall fuel,
             run decode fuel from_addr c =
             match run_loop decode fuel c0 with
             | None => None
             | Some (Raise e) => Some (Raise e)
             | Some (Ok (_, c2, t2)) =>
                 Some (Ok (tt, c2, [SetHalted false; RegPut 15 from_addr] ++ t2))
             end).
  { intros fuel. unfold run. rewrite (run_setup_ok c from_addr Hrs). reflexivity. }
  exists c0. split; [apply run_setup_ok; exact Hrs |].
  split; [exact Hh0 |].
  split; [unfold pc; apply reg_write_same; [exact Hrs | lia] |].
  split; [| split; [| split; [| split; [| split]]]].
  - intros n. destruct (steps_total n c0 Hrs0) as (cn & Hcn & _). eauto.
  - intros n cn cn' Hn HSn. rewrite steps_snoc, Hn in HSn.
    destruct (steps_total n c0 Hrs0) as (cn0 & Hcn0 & Hrsn).
    rewrite Hn in Hcn0. injection Hcn0 as <-.
    destruct (step_total decode cn Hrsn (decode_in_range _))
      as (c1 & t1 & Hst & _ & Hh1 & _).
    rewrite Hst in HSn. injection HSn as <-. exact Hh1.
  - intros n cn Hn Hstop fuel Hfuel. rewrite Hrun.
    pose proof (run_loop_spec fuel c0 Hrs0 Hh0) as Hspec.
    destruct (run_loop decode fuel c0) as [[[[[] c2] t2]|e]|].
    + destruct Hspec as (Hh2 & _). eauto.
    + contradiction.
    + rewrite (Hspec n cn Hfuel Hn) in Hstop. discriminate.
  - intros fuel c' t. rewrite Hrun.
    pose proof (run_loop_spec fuel c0 Hrs0 Hh0) as Hspec.
    destruct (run_loop decode fuel c0) as [[[[[] c2] t2]|e]|]; try discriminate.
    intros [= <- _]. exact Hspec.
  - intros fuel e. rewrite Hrun.
    pose proof (run_loop_spec fuel c0 Hrs0 Hh0) as Hspec.
    destruct (run_loop decode fuel c0) as [[[[[] c2] t2]|e']|];
      [discriminate | contradiction | discriminate].
  - intros Hnone fuel. rewrite Hrun.
    pose proof (run_loop_spec fuel c0 Hrs0 Hh0) as Hspec.
    destruct (run_loop decode fuel c0) as [[[[[] c2] t2]|e']|];
      [| contradiction | reflexivity].
    destruct Hspec as (_ & n & cn & _ & Hn & Hstop & _).
    rewrite (Hnone n cn Hn) in Hstop. discriminate.
Qed.

(** C10: the setup of [run(from_addr)] stores [halted] and writes register
    15 and nothing else: the condition, the registers other than 15 and the
    memory are those from before the call, and they are what the first
    [step] of the loop starts from; [run] does not touch the condition. *)
Theorem run_setup_frame (c : CPU) (from_addr : Z) (fuel : nat) :
  register_file (registers c) ->
  exists c0,
    run_setup from_addr c = Ok (tt, c0, [SetHalted false; RegPut 15 from_addr]) /\
    condition c0 = condition c /\
    (forall n : nat, n <> 15%nat -> registers c0 !! n = registers c !! n) /\
    (forall i : Z, 0 <= i < 15 -> reg c0 i = reg c i) /\
    memory c0 = memory c /\
    halted c0 = false /\
    pc c0 = from_addr /\
    run decode (S fuel) from_addr c =
    match step decode c0 with
    | Raise e => Some (Raise e)
    | Ok (_, c1, t1) =>
        match run_loop decode fuel c1 with
        | None => None
        | Some (Raise e) => Some (Raise e)
        | Some (Ok (_, c2, t2)) =>
            Some (Ok (tt, c2, [SetHalted false; RegPut 15 from_addr] ++ t1 ++ t2))
        end
    end.
Proof.
  intros Hrs. eexists. split; [apply run_setup_ok; exact Hrs |].
  split; [reflexivity |].
  split; [intros n Hn; simpl; apply write_reg_lookup_ne; exact Hn |].
  split.
  { intros i Hi. unfold reg. simpl. rewrite write_reg_lookup_ne by lia. reflexivity. }
  split; [reflexivity |]. split; [reflexivity |].
  split; [unfold pc; apply reg_write_same; [exact Hrs | lia] |].
  unfold run. rewrite (run_setup_ok c from_addr Hrs).
  cbn [run_loop halted set_registers set_halt].
  destruct (step decode _) as [[[[] c1] t1]|e]; [| reflexivity].
  destruct (run_loop decode fuel c1) as [[[[[] c2] t2]|e]|]; reflexivity.
Qed.

(** ** The condition flag over the life of a CPU *)

Lemma reachable_register_file (c : CPU) :
  reachable decode c -> register_file (registers c).
Proof using decode_in_range.
  induction 1 as [m | c c' t _ IH Hst | from_addr c c' t _ IH Hset | c m _ IH].
  - apply register_file_init.
  - destruct (step_total decode c IH (decode_in_range _)) as (c1 & t1 & Hst1 & Hrs1 & _).
    rewrite Hst in Hst1. injection Hst1 as -> _. exact Hrs1.
  - rewrite (run_setup_ok c from_addr IH) in Hset. injection Hset as <- _.
    apply write_reg_file. exact IH.
  - exact IH.
Qed.

Lemma step_condition (c c' : CPU) (t : list Action) :
  register_file (registers c) ->
  step decode c = Ok (tt, c', t) ->
  (passes decode c = true ->
   In (condition c') [CondFlag_Z; CondFlag_M; CondFlag_P; CondFlag_V]) /\
  (passes decode c = false -> condition c' = condition c).
Proof using decode_in_range.
  intros Hrs Hst.
  destruct (step_total decode c Hrs (decode_in_range _))
    as (c1 & t1 & Hst1 & _ & _ & Hskip & Hexec).
  rewrite Hst in Hst1. injection Hst1 as <- _.
  split; [| exact Hskip].
  intros Hp. destruct (Hexec Hp) as [res Halu].
  exact (ALU_exec_flag _ _ _ _ _ Halu).
Qed.

(** C3 (amended): a CPU is built with the always-true sentinel as its
    condition, and in every reachable state the condition is the sentinel or
    one of Zero, Minus, Plus, Fault.  A step whose condition test passes
    sets it to one of the four flags; a step whose test fails and the setup
    of [run] leave it as it is; so once it is one of the four flags, a step
    keeps it among them. *)
Theorem condition_reachable :
  (forall m : Memory, condition (CPU_init m) = CondFlag_ALWAYS) /\
  (forall c : CPU,
      reachable decode c ->
      In (condition c)
         [CondFlag_ALWAYS; CondFlag_Z; CondFlag_M; CondFlag_P; CondFlag_V]) /\
  (forall (c c' : CPU) (t : list Action),
      reachable decode c ->
      step decode c = Ok (tt, c', t) ->
      (Z.land (condition c) (cond (fetched decode c)) <> 0 ->
       In (condition c') [CondFlag_Z; CondFlag_M; CondFlag_P; CondFlag_V]) /\
      (Z.land (condition c) (cond (fetched decode c)) = 0 ->
       condition c' = condition c) /\
      (In (condition c) [CondFlag_Z; CondFlag_M; CondFlag_P; CondFlag_V] ->
       In (condition c') [CondFlag_Z; CondFlag_M; CondFlag_P; CondFlag_V])) /\
  (forall (from_addr : Z) (c c' : CPU) (t : list Action),
      reachable decode c ->
      run_setup from_addr c = Ok (tt, c', t) ->
      condition c' = condition c).
Proof using decode_in_range.
  split; [reflexivity |]. split; [| split].
  - intros c Hreach.
    induction Hreach as [m | c c' t Hr IH Hst | from_addr c c' t Hr IH Hset | c m _ IH].
    + left. reflexivity.
    + destruct (step_condition c c' t (reachable_register_file c Hr) Hst) as [Hexec Hskip].
      destruct (passes decode c) eqn:Hp.
      * right. exact (Hexec eq_refl).
      * rewrite (Hskip eq_refl). exact IH.
    + rewrite (run_setup_ok c from_addr (reachable_register_file c Hr)) in Hset.
      injection Hset as <- _. exact IH.
    + exact IH.
  - intros c c' t Hreach Hst.
    destruct (step_condition c c' t (reachable_register_file c Hreach) Hst) as [Hexec Hskip].
    split; [| split].
    + intros Hp. apply Hexec. apply passes_true. exact Hp.
    + intros Hz. apply Hskip. apply passes_false. exact Hz.
    + intros Hfour. destruct (passes decode c) eqn:Hp.
      * exact (Hexec eq_refl).
      * rewrite (Hskip eq_refl). exact Hfour.
  - intros from_addr c c' t Hreach Hset.
    rewrite (run_setup_ok c from_addr (reachable_register_file c Hreach)) in Hset.
    injection Hset as <- _. reflexivity.
Qed.

(** ** The end-to-end program *)

Lemma advanced_file (c : CPU) (nc : CondFlag) :
  register_file (registers c) -> register_file (registers (advanced c nc)).
Proof.
  intros Hrs. apply write_reg_file. exact Hrs.
Qed.

Lemma advanced_pc (c : CPU) (nc : CondFlag) :
  register_file (registers c) -> pc (advanced c nc) = pc c + 1.
Proof.
  intros Hrs. unfold advanced, pc. apply reg_write_same; [exact Hrs | lia].
Qed.

Lemma advanced_reg (c : CPU) (nc : CondFlag) (i : Z) :
  0 <= i < 15 -> reg (advanced c nc) i = reg c i.
Proof.
  intros Hi. unfold advanced, reg. cbn [registers set_registers].
  rewrite write_reg_lookup_ne by lia. reflexivity.
Qed.

Lemma advanced_memory (c : CPU) (nc : CondFlag) : memory (advanced c nc) = memory c.
Proof.
  unfold advanced. destruct (nc =? CondFlag_V); reflexivity.
Qed.

Lemma advanced_condition (c : CPU) (nc : CondFlag) : condition (advanced c nc) = nc.
Proof.
  unfold advanced. destruct (nc =? CondFlag_V); reflexivity.
Qed.

(** C9: memory holds at address 0 a word that decodes to ADD r1,r0,r0[5]
    with the always mask and at address 1 a word that decodes to a Halt;
    the Halt is one that the CPU executes after the addition, that is, its
    condition mask admits Plus, as the always mask of an unconditional Halt
    does.  Then [run(0)], on a fresh CPU or one in any other reachable
    condition, returns after two steps with register 1 equal to 5, the
    program counter equal to 2 and [halted] true. *)
Theorem run_add_halt (c : CPU) (fuel : nat) :
  register_file (registers c) ->
  In (condition c)
     [CondFlag_ALWAYS; CondFlag_Z; CondFlag_M; CondFlag_P; CondFlag_V] ->
  decode (Memory_get (memory c) 0) = mkInstruction ADD CondFlag_ALWAYS 1 0 0 5 ->
  op (decode (Memory_get (memory c) 1)) = HALT ->
  Z.land CondFlag_P (cond (decode (Memory_get (memory c) 1))) <> 0 ->
  (2 <= fuel)%nat ->
  exists c' t,
    run decode fuel 0 c = Some (Ok (tt, c', t)) /\
    reg c' 1 = 5 /\
    pc c' = 2 /\
    halted c' = true.
Proof using decode_in_range.
  intros Hrs Hcond Hadd Hop Hmask Hfuel.
  destruct fuel as [|[|fuel]]; try lia.
  unfold run. rewrite (run_setup_ok c 0 Hrs).
  set (c0 := set_registers (set_halt c false) (write_reg (registers c) 15 0)).
  assert (Hrs0 : register_file (registers c0)) by (apply write_reg_file; exact Hrs).
  assert (Hpc0 : pc c0 = 0) by (unfold pc; apply reg_write_same; [exact Hrs | lia]).
  assert (Hf0 : fetched decode c0 = mkInstruction ADD CondFlag_ALWAYS 1 0 0 5)
    by (unfold fetched; rewrite Hpc0; exact Hadd).
  assert (Hp0 : passes decode c0 = true).
  { unfold passes. rewrite Hf0. change (condition c0) with (condition c).
    simpl in Hcond. destruct Hcond as [<-|[<-|[<-|[<-|[<-|[]]]]]]; reflexivity. }
  assert (Halu0 : alu_outcome decode c0 = Ok (5, CondFlag_P)).
  { unfold alu_outcome. rewrite Hf0. cbn [op reg_src1 reg_src2 offset].
    rewrite (reg_zero c0 Hrs0). reflexivity. }
  pose proof (step_exec decode c0 5 CondFlag_P Hrs0 (decode_in_range _) Hp0 Halu0) as Hst0.
  cbv zeta in Hst0. rewrite Hf0 in Hst0. cbn [op reg_target] in Hst0.
  set (c1 := set_registers (advanced c0 CondFlag_P)
               (write_reg (registers (advanced c0 CondFlag_P)) 1 5)) in *.
  assert (Hrs1 : register_file (registers c1))
    by (apply write_reg_file, advanced_file; exact Hrs0).
  assert (Hr1 : reg c1 1 = 5)
    by (apply reg_write_same; [apply advanced_file; exact Hrs0 | lia]).
  assert (Hpc1 : pc c1 = 1).
  { unfold pc, c1. rewrite reg_write_other by lia.
    change (pc (advanced c0 CondFlag_P) = 1).
    rewrite (advanced_pc c0 _ Hrs0), Hpc0. reflexivity. }
  assert (Hf1 : fetched decode c1 = decode (Memory_get (memory c) 1))
    by (unfold fetched; rewrite Hpc1; reflexivity).
  assert (Hp1 : passes decode c1 = true)
    by (apply passes_true; rewrite Hf1; exact Hmask).
  assert (Halu1 : alu_outcome decode c1 = Ok (0, CondFlag_Z))
    by (unfold alu_outcome; rewrite Hf1, Hop; reflexivity).
  pose proof (step_exec decode c1 0 CondFlag_Z Hrs1 (decode_in_range _) Hp1 Halu1) as Hst1.
  cbv zeta in Hst1. rewrite Hf1, Hop in Hst1.
  set (c2 := set_halt (advanced c1 CondFlag_Z) true) in *.
  rewrite (run_loop_step decode (S fuel) c0 c1 _ eq_refl Hst0).
  assert (Hh1 : halted c1 = false) by reflexivity.
  rewrite (run_loop_step decode fuel c1 c2 _ Hh1 Hst1).
  rewrite (run_loop_halted decode fuel c2 eq_refl).
  eexists _, _. split; [reflexivity |].
  split; [| split; [| reflexivity]].
  - change (reg (advanced c1 CondFlag_Z) 1 = 5).
    rewrite advanced_reg by lia. exact Hr1.
  - change (pc (advanced c1 CondFlag_Z) = 2).
    rewrite (advanced_pc c1 _ Hrs1), Hpc1. reflexivity.
Qed.

End Run.

(** ** The step-begin event *)

(** X1: every step broadcasts one event, after the two fetch reads and
    before anything else; its subject is the CPU before execution and its
    instruction the decoded one.  Its [pc_addr] is the word read from
    memory and its [instr_word] is the value read from register 15. *)
Lemma step_event (decode : Z -> Instruction) (c : CPU) :
  register_file (registers c) ->
  in_range (fetched decode c) ->
  exists c' rest,
    step decode c =
    Ok (tt, c',
        [RegGet 15; MemGet (pc c);
         NotifyAll {| subject := c;
                      pc_addr := Memory_get (memory c) (pc c);
                      instr_word := pc c;
                      instr := decode (Memory_get (memory c) (pc c)) |}]
        ++ rest) /\
    List.filter is_notify rest = [].
Proof.
  intros Hrs Hin. destruct (passes decode c) eqn:Hp.
  - destruct (alu_outcome_total decode c) as (res & nc & Halu).
    pose proof (step_exec decode c res nc Hrs Hin Hp Halu) as Hstep.
    cbv zeta in Hstep. rewrite Hstep. eexists _, _. split; [reflexivity |].
    destruct (nc =? CondFlag_V); destruct (op (fetched decode c)); reflexivity.
  - rewrite (step_skip decode c Hrs Hp). eexists _, _. split; reflexivity.
Qed.

(** ** Concrete runs *)

Lemma field_range (w lo : Z) : 0 <= field w lo 4 < 16.
Proof.
  unfold field. rewrite Z.land_ones by lia.
  change (2 ^ 4) with 16. apply Z.mod_pos_bound. lia.
Qed.

Lemma sample_decode_in_range (w : Z) : in_range (sample_decode w).
Proof.
  unfold in_range, sample_decode. cbn [reg_target reg_src1 reg_src2].
  auto using field_range.
Qed.

(** C2: the step on a fresh CPU over the end-to-end program, program counter
    0 and the word 1058013189 at address 0.  One event is broadcast, before
    execution; its [pc_addr] is the word and its [instr_word] is the
    address, the reverse of what the field names say. *)
Theorem step_event_fields_swapped :
  pc (CPU_init prog_add_halt) = 0 /\
  Memory_get (memory (CPU_init prog_add_halt)) 0 = 1058013189 /\
  exists c' t e,
    step sample_decode (CPU_init prog_add_halt) = Ok (tt, c', t) /\
    List.filter is_notify t = [NotifyAll e] /\
    t !! 2%nat = Some (NotifyAll e) /\
    subject e = CPU_init prog_add_halt /\
    instr e = sample_decode 1058013189 /\
    pc_addr e = 1058013189 /\
    instr_word e = 0 /\
    pc_addr e <> pc (CPU_init prog_add_halt) /\
    instr_word e <> Memory_get (memory (CPU_init prog_add_halt)) 0.
Proof.
  split; [reflexivity |]. split; [reflexivity |].
  eexists _, _, _. split; [reflexivity |].
  repeat (split; [reflexivity |]).
  split; vm_compute; discriminate.
Qed.

(** C1, as stated, fails: in the step that executes ADD r1,r0,r0[5] the
    write of register 15 is the action before the last and the write of
    the target register is the last one; and in the step that executes
    ADD r15,r0,r0[7] the program counter ends at 7, the value the target
    write put there, not at 8. *)
Lemma step_order_counterexample :
  (passes sample_decode (CPU_init prog_add_halt) = true /\
   fetched sample_decode (CPU_init prog_add_halt)
   = mkInstruction ADD CondFlag_ALWAYS 1 0 0 5 /\
   exists c' t,
     step sample_decode (CPU_init prog_add_halt) = Ok (tt, c', t) /\
     length t = 9%nat /\
     t !! 7%nat = Some (RegPut 15 1) /\
     t !! 8%nat = Some (RegPut 1 5) /\
     last t <> Some (RegPut 15 1)) /\
  (passes sample_decode (CPU_init prog_jump) = true /\
   fetched sample_decode (CPU_init prog_jump)
   = mkInstruction ADD CondFlag_ALWAYS 15 0 0 7 /\
   exists c' t,
     step sample_decode (CPU_init prog_jump) = Ok (tt, c', t) /\
     last t = Some (RegPut 15 7) /\
     pc c' = 7 /\
     pc c' <> 7 + 1).
Proof.
  split.
  - split; [reflexivity |]. split; [reflexivity |].
    eexists _, _. split; [reflexivity |].
    repeat (split; [reflexivity |]). vm_compute. discriminate.
  - split; [reflexivity |]. split; [reflexivity |].
    eexists _, _. split; [reflexivity |].
    repeat (split; [reflexivity |]). vm_compute. discriminate.
Qed.

(** C3, as stated, fails: the freshly built CPU is reachable and its
    condition is the always-true sentinel, which is none of Zero, Minus,
    Plus, Fault; and it is still the sentinel after a step whose condition
    test fails. *)
Lemma condition_reachable_counterexample :
  reachable sample_decode (CPU_init prog_never) /\
  condition (CPU_init prog_never) = CondFlag_ALWAYS /\
  ~ In (condition (CPU_init prog_never))
       [CondFlag_Z; CondFlag_M; CondFlag_P; CondFlag_V] /\
  exists c' t,
    step sample_decode (CPU_init prog_never) = Ok (tt, c', t) /\
    fetched sample_decode (CPU_init prog_never) = mkInstruction ADD 0 1 0 0 5 /\
    passes sample_decode (CPU_init prog_never) = false /\
    reachable sample_decode c' /\
    condition c' = CondFlag_ALWAYS /\
    ~ In (condition c') [CondFlag_Z; CondFlag_M; CondFlag_P; CondFlag_V].
Proof.
  assert (Hnot : ~ In CondFlag_ALWAYS [CondFlag_Z; CondFlag_M; CondFlag_P; CondFlag_V]).
  { simpl. intros [H|[H|[H|[H|[]]]]]; discriminate H. }
  split; [apply reach_init |]. split; [reflexivity |]. split; [exact Hnot |].
  eexists _, _. split; [reflexivity |]. split; [reflexivity |].
  split; [reflexivity |]. split.
  - eapply (reach_step sample_decode (CPU_init prog_never)); [apply reach_init |].
    reflexivity.
  - split; [reflexivity | exact Hnot].
Qed.

(** ** The theorems at concrete inputs *)

(** [step_event] on the first step of the end-to-end program. *)
Lemma step_event_witness :
  register_file (registers (CPU_init prog_add_halt)) /\
  in_range (fetched sample_decode (CPU_init prog_add_halt)) /\
  exists c' rest,
    step sample_decode (CPU_init prog_add_halt) =
    Ok (tt, c',
        [RegGet 15; MemGet (pc (CPU_init prog_add_halt));
         NotifyAll
           {| subject := CPU_init prog_add_halt;
              pc_addr := Memory_get (memory (CPU_init prog_add_halt))
                           (pc (CPU_init prog_add_halt));
              instr_word := pc (CPU_init prog_add_halt);
              instr := sample_decode
                         (Memory_get (memory (CPU_init prog_add_halt))
                            (pc (CPU_init prog_add_halt))) |}]
        ++ rest) /\
    List.filter is_notify rest = [].
Proof.
  split; [apply register_file_init |].
  split; [apply sample_decode_in_range |].
  exact (step_event sample_decode (CPU_init prog_add_halt)
           (register_file_init prog_add_halt) (sample_decode_in_range _)).
Defined.

(** [step_condition_fails_frame] on a fresh CPU whose first instruction has
    an empty condition mask. *)
Lemma step_condition_fails_frame_witness :
  register_file (registers (CPU_init prog_never)) /\
  Z.land (condition (CPU_init prog_never))
         (cond (fetched sample_decode (CPU_init prog_never))) = 0 /\
  exists c' t,
    step sample_decode (CPU_init prog_never) = Ok (tt, c', t) /\
    memory c' = memory (CPU_init prog_never) /\
    condition c' = condition (CPU_init prog_never) /\
    halted c' = halted (CPU_init prog_never) /\
    pc c' = pc (CPU_init prog_never) + 1.
Proof.
  split; [apply register_file_init |]. split; [reflexivity |].
  destruct (step_condition_fails_frame sample_decode (CPU_init prog_never)
              (register_file_init prog_never) eq_refl)
    as (c' & t & Hst & _ & _ & Hm & Hc & Hh & Hpc).
  exists c', t. repeat split; assumption.
Defined.

(** [step_order] on the first step of the end-to-end program. *)
Lemma step_order_witness :
  register_file (registers (CPU_init prog_add_halt)) /\
  in_range (fetched sample_decode (CPU_init prog_add_halt)) /\
  Z.land (condition (CPU_init prog_add_halt))
         (cond (fetched sample_decode (CPU_init prog_add_halt))) <> 0 /\
  alu_outcome sample_decode (CPU_init prog_add_halt) = Ok (5, CondFlag_P) /\
  exists c' t,
    step sample_decode (CPU_init prog_add_halt) = Ok (tt, c', t) /\
    registers c' =
      write_reg (write_reg (registers (CPU_init prog_add_halt)) 15
                   (pc (CPU_init prog_add_halt) + 1)) 1 5.
Proof.
  assert (Hp : Z.land (condition (CPU_init prog_add_halt))
                 (cond (fetched sample_decode (CPU_init prog_add_halt))) <> 0)
    by (vm_compute; discriminate).
  split; [apply register_file_init |].
  split; [apply sample_decode_in_range |].
  split; [exact Hp |]. split; [reflexivity |].
  destruct (step_order sample_decode (CPU_init prog_add_halt) 5 CondFlag_P
              (register_file_init prog_add_halt) (sample_decode_in_range _) Hp eq_refl)
    as (c' & Hst & Hregs).
  eexists c', _. split; [exact Hst |].
  apply Hregs; [reflexivity | discriminate | discriminate].
Defined.

(** [step_fault] on a fresh CPU whose first instruction divides by zero. *)
Lemma step_fault_witness :
  register_file (registers (CPU_init prog_div_zero)) /\
  in_range (fetched sample_decode (CPU_init prog_div_zero)) /\
  Z.land (condition (CPU_init prog_div_zero))
         (cond (fetched sample_decode (CPU_init prog_div_zero))) <> 0 /\
  alu_outcome sample_decode (CPU_init prog_div_zero) = Ok (0, CondFlag_V) /\
  exists c' t,
    step sample_decode (CPU_init prog_div_zero) = Ok (tt, c', t) /\
    condition c' = CondFlag_V /\
    halted c' = true /\
    run_loop sample_decode 1 (CPU_init prog_div_zero) = Some (Ok (tt, c', t)).
Proof.
  assert (Hp : Z.land (condition (CPU_init prog_div_zero))
                 (cond (fetched sample_decode (CPU_init prog_div_zero))) <> 0)
    by (vm_compute; discriminate).
  split; [apply register_file_init |].
  split; [apply sample_decode_in_range |].
  split; [exact Hp |]. split; [reflexivity |].
  destruct (step_fault sample_decode (CPU_init prog_div_zero) 0
              (register_file_init prog_div_zero) (sample_decode_in_range _) Hp eq_refl)
    as (c' & t & Hst & Hc & Hh & _ & _ & _ & _ & _ & _ & _ & Hrun).
  exists c', t. repeat split; try assumption.
  apply Hrun. reflexivity.
Defined.

(** [run_halts_exactly] on the end-to-end program. *)
Lemma run_halts_exactly_witness :
  (forall w : Z, in_range (sample_decode w)) /\
  register_file (registers (CPU_init prog_add_halt)) /\
  exists c0,
    run_setup 0 (CPU_init prog_add_halt) = Ok (tt, c0, [SetHalted false; RegPut 15 0]) /\
    halted c0 = false /\
    pc c0 = 0 /\
    forall fuel e, run sample_decode fuel 0 (CPU_init prog_add_halt) <> Some (Raise e).
Proof.
  split; [exact sample_decode_in_range |].
  split; [apply register_file_init |].
  destruct (run_halts_exactly sample_decode sample_decode_in_range
              (CPU_init prog_add_halt) 0 (register_file_init prog_add_halt))
    as (c0 & Hset & Hh & Hpc & _ & _ & _ & _ & Hraise & _).
  exists c0. repeat split; assumption.
Defined.

(** [run_setup_frame] on a fresh CPU started at address 7. *)
Lemma run_setup_frame_witness :
  register_file (registers (CPU_init prog_add_halt)) /\
  exists c0,
    run_setup 7 (CPU_init prog_add_halt) = Ok (tt, c0, [SetHalted false; RegPut 15 7]) /\
    condition c0 = condition (CPU_init prog_add_halt) /\
    memory c0 = memory (CPU_init prog_add_halt) /\
    halted c0 = false /\
    pc c0 = 7.
Proof.
  split; [apply register_file_init |].
  destruct (run_setup_frame sample_decode (CPU_init prog_add_halt) 7 1
              (register_file_init prog_add_halt))
    as (c0 & Hset & Hc & _ & _ & Hm & Hh & Hpc & _).
  exists c0. repeat split; assumption.
Defined.

(** [condition_reachable] with the concrete decoder, read at a fresh CPU. *)
Lemma condition_reachable_witness :
  (forall w : Z, in_range (sample_decode w)) /\
  reachable sample_decode (CPU_init prog_add_halt) /\
  condition (CPU_init prog_add_halt) = CondFlag_ALWAYS /\
  In (condition (CPU_init prog_add_halt))
     [CondFlag_ALWAYS; CondFlag_Z; CondFlag_M; CondFlag_P; CondFlag_V].
Proof.
  split; [exact sample_decode_in_range |].
  split; [apply reach_init |].
  destruct (condition_reachable sample_decode sample_decode_in_range)
    as (Hinit & Hfive & _).
  split; [apply Hinit | apply Hfive; apply reach_init].
Defined.

(** [run_add_halt] on a fresh CPU over the end-to-end program, whose Halt
    carries the always mask. *)
Lemma run_add_halt_witness :
  (forall w : Z, in_range (sample_decode w)) /\
  register_file (registers (CPU_init prog_add_halt)) /\
  In (condition (CPU_init prog_add_halt))
     [CondFlag_ALWAYS; CondFlag_Z; CondFlag_M; CondFlag_P; CondFlag_V] /\
  sample_decode (Memory_get (memory (CPU_init prog_add_halt)) 0)
  = mkInstruction ADD CondFlag_ALWAYS 1 0 0 5 /\
  op (sample_decode (Memory_get (memory (CPU_init prog_add_halt)) 1)) = HALT /\
  Z.land CondFlag_P
         (cond (sample_decode (Memory_get (memory (CPU_init prog_add_halt)) 1))) <> 0 /\
  (2 <= 2)%nat /\
  exists c' t,
    run sample_decode 2 0 (CPU_init prog_add_halt) = Some (Ok (tt, c', t)) /\
    reg c' 1 = 5 /\
    pc c' = 2 /\
    halted c' = true.
Proof.
  assert (Hmask : Z.land CondFlag_P
                    (cond (sample_decode
                             (Memory_get (memory (CPU_init prog_add_halt)) 1))) <> 0)
    by (vm_compute; discriminate).
  split; [exact sample_decode_in_range |].
  split; [apply register_file_init |].
  split; [left; reflexivity |].
  split; [reflexivity |]. split; [reflexivity |].
  split; [exact Hmask |]. split; [lia |].
  exact (run_add_halt sample_decode sample_decode_in_range (CPU_init prog_add_halt) 2
           (register_file_init prog_add_halt) (or_introl eq_refl) eq_refl eq_refl
           Hmask (le_n 2)).
Defined.

(** ** The effect of each opcode *)

Lemma ALU_exec_ok (o : OpCode) (x y sol : Z) :
  ALU_apply o x y = Ok sol ->
  ALU_exec o x y =
  Ok (sol, if sol =? 0 then CondFlag_Z else if sol <? 0 then CondFlag_M else CondFlag_P).
Proof.
  intros Happ. unfold ALU_exec, ALU_exec_try. rewrite Happ. reflexivity.
Qed.

Lemma sign_flag_not_fault (sol : Z) :
  ((if sol =? 0 then CondFlag_Z else if sol <? 0 then CondFlag_M else CondFlag_P)
   =? CondFlag_V) = false.
Proof.
  destruct (sol =? 0); [reflexivity |]. destruct (sol <? 0); reflexivity.
Qed.

(** What two successive [put]s, on register 15 and then on the target, leave
    in the register file. *)
Lemma target_write (rs : list Register) (c' : CPU) (target p v : Z) :
  register_file rs ->
  0 <= target < 16 ->
  registers c' = write_reg (write_reg rs 15 p) target v ->
  (forall n : nat, n <> 15%nat -> n <> Z.to_nat target -> registers c' !! n = rs !! n) /\
  (1 <= target < 15 -> reg c' target = v /\ pc c' = p) /\
  (target = 15 -> pc c' = v) /\
  (target = 0 -> pc c' = p /\ forall n : nat, n <> 15%nat -> registers c' !! n = rs !! n).
Proof.
  intros Hrs Ht Hregs.
  assert (Hrs15 : register_file (write_reg rs 15 p)) by (apply write_reg_file; exact Hrs).
  assert (Hpc : (write_reg rs 15 p) !! 15%nat = Some (PlainRegister p))
    by (apply (write_reg_lookup_plain rs 15 p Hrs); lia).
  split; [| split; [| split]].
  - intros n Hn15 Hnt. rewrite Hregs.
    rewrite write_reg_lookup_ne by exact Hnt.
    apply write_reg_lookup_ne. exact Hn15.
  - intros Ht'. unfold pc, reg. rewrite Hregs. split.
    + rewrite write_reg_lookup_plain by (assumption || lia). reflexivity.
    + rewrite write_reg_lookup_ne by lia.
      change (Z.to_nat 15) with 15%nat. rewrite Hpc. reflexivity.
  - intros ->. unfold pc, reg. rewrite Hregs.
    rewrite write_reg_lookup_plain by (assumption || lia). reflexivity.
  - intros ->. rewrite write_reg_zero in Hregs by exact Hrs15. split.
    + unfold pc, reg. rewrite Hregs.
      change (Z.to_nat 15) with 15%nat. rewrite Hpc. reflexivity.
    + intros n Hn. rewrite Hregs. apply write_reg_lookup_ne. exact Hn.
Qed.

Section Opcodes.

Variable decode : Z -> Instruction.

(** An executing step whose operation computes [sol]: the state before the
    opcode's own effect, and the step's result. *)
Lemma step_exec_plain (c : CPU) (sol : Z) :
  register_file (registers c) ->
  in_range (fetched decode c) ->
  Z.land (condition c) (cond (fetched decode c)) <> 0 ->
  ALU_apply (op (fetched decode c)) (reg c (reg_src1 (fetched decode c)))
    (reg c (reg_src2 (fetched decode c)) + offset (fetched decode c)) = Ok sol ->
  let i := fetched decode c in
  let nc := if sol =? 0 then CondFlag_Z else if sol <? 0 then CondFlag_M else CondFlag_P in
  let c3 := set_registers (set_cond c nc) (write_reg (registers c) 15 (pc c + 1)) in
  exists t,
    step decode c =
    Ok (tt,
        match op i with
        | HALT => set_halt c3 true
        | LOAD => set_registers c3 (write_reg (registers c3) (reg_target i) (Memory_get (memory c) sol))
        | STORE => set_memory c3 (Memory_put (memory c) sol (reg c3 (reg_target i)))
        | _ => set_registers c3 (write_reg (registers c3) (reg_target i) sol)
        end, t).
Proof.
  intros Hrs Hin Hp Happ i nc c3.
  apply passes_true in Hp.
  pose proof (step_exec decode c sol nc Hrs Hin Hp (ALU_exec_ok _ _ _ _ Happ)) as Hstep.
  cbv zeta in Hstep. rewrite Hstep. eexists.
  unfold advanced. subst nc. rewrite sign_flag_not_fault. reflexivity.
Qed.

Lemma reg_after_increment (c : CPU) (nc : CondFlag) (target : Z) :
  register_file (registers c) ->
  0 <= target < 16 ->
  reg (set_registers (set_cond c nc) (write_reg (registers c) 15 (pc c + 1))) target
  = if target =? 15 then pc c + 1 else reg c target.
Proof.
  intros Hrs Ht. destruct (Z.eqb_spec target 15) as [->|Hne].
  - apply reg_write_same; [exact Hrs | lia].
  - rewrite reg_write_other by lia. reflexivity.
Qed.

(** X2: an executed Add, Subtract, Multiply or Divide whose operation
    computes [sol] leaves memory and [halted] alone, sets the condition to
    the sign flag of [sol], and writes [sol] to the target after the program
    counter is incremented: a target 1..14 holds [sol] and the counter moved
    by 1; target 15 makes [sol] the new program counter (a jump); target 0
    discards the result. *)
Theorem step_arith (c : CPU) (sol : Z) :
  register_file (registers c) ->
  in_range (fetched decode c) ->
  Z.land (condition c) (cond (fetched decode c)) <> 0 ->
  In (op (fetched decode c)) [ADD; SUB; MUL; DIV] ->
  ALU_apply (op (fetched decode c)) (reg c (reg_src1 (fetched decode c)))
    (reg c (reg_src2 (fetched decode c)) + offset (fetched decode c)) = Ok sol ->
  exists c' t,
    step decode c = Ok (tt, c', t) /\
    memory c' = memory c /\
    halted c' = halted c /\
    condition c' =
      (if sol =? 0 then CondFlag_Z else if sol <? 0 then CondFlag_M else CondFlag_P) /\
    (forall n : nat,
        n <> 15%nat -> n <> Z.to_nat (reg_target (fetched decode c)) ->
        registers c' !! n = registers c !! n) /\
    (1 <= reg_target (fetched decode c) < 15 ->
     reg c' (reg_target (fetched decode c)) = sol /\ pc c' = pc c + 1) /\
    (reg_target (fetched decode c) = 15 -> pc c' = sol) /\
    (reg_target (fetched decode c) = 0 ->
     pc c' = pc c + 1 /\
     forall n : nat, n <> 15%nat -> registers c' !! n = registers c !! n).
Proof.
  intros Hrs Hin Hp Hop Happ.
  destruct (step_exec_plain c sol Hrs Hin Hp Happ) as [t Hst].
  cbv zeta in Hst. destruct Hin as (Ht & _ & _).
  eexists _, t. split; [exact Hst |].
  simpl in Hop.
  destruct (op (fetched decode c));
    try (exfalso; destruct Hop as [H|[H|[H|[H|[]]]]]; discriminate H).
  all: repeat (split; [reflexivity |]).
  all: apply (target_write (registers c) _ _ _ _ Hrs Ht); reflexivity.
Qed.

(** X3: an executed Load reads memory at the address source1 + source2 +
    offset and writes that word to the target after the program counter is
    incremented; memory and [halted] are untouched, and the condition
    becomes the sign flag of the address, not of the loaded word. *)
Theorem step_load (c : CPU) :
  register_file (registers c) ->
  in_range (fetched decode c) ->
  Z.land (condition c) (cond (fetched decode c)) <> 0 ->
  op (fetched decode c) = LOAD ->
  exists c' t addr,
    step decode c = Ok (tt, c', t) /\
    addr = reg c (reg_src1 (fetched decode c))
           + (reg c (reg_src2 (fetched decode c)) + offset (fetched decode c)) /\
    memory c' = memory c /\
    halted c' = halted c /\
    condition c' =
      (if addr =? 0 then CondFlag_Z else if addr <? 0 then CondFlag_M else CondFlag_P) /\
    (forall n : nat,
        n <> 15%nat -> n <> Z.to_nat (reg_target (fetched decode c)) ->
        registers c' !! n = registers c !! n) /\
    (1 <= reg_target (fetched decode c) < 15 ->
     reg c' (reg_target (fetched decode c)) = Memory_get (memory c) addr /\
     pc c' = pc c + 1) /\
    (reg_target (fetched decode c) = 15 -> pc c' = Memory_get (memory c) addr) /\
    (reg_target (fetched decode c) = 0 ->
     pc c' = pc c + 1 /\
     forall n : nat, n <> 15%nat -> registers c' !! n = registers c !! n).
Proof.
  intros Hrs Hin Hp Hop.
  assert (Happ : ALU_apply (op (fetched decode c)) (reg c (reg_src1 (fetched decode c)))
                   (reg c (reg_src2 (fetched decode c)) + offset (fetched decode c))
                 = Ok (reg c (reg_src1 (fetched decode c))
                       + (reg c (reg_src2 (fetched decode c)) + offset (fetched decode c))))
    by (rewrite Hop; reflexivity).
  destruct (step_exec_plain c _ Hrs Hin Hp Happ) as [t Hst].
  cbv zeta in Hst. rewrite Hop in Hst. destruct Hin as (Ht & _ & _).
  eexists _, t, _. split; [exact Hst |].
  repeat (split; [reflexivity |]).
  apply (target_write (registers c) _ _ _ _ Hrs Ht). reflexivity.
Qed.

(** X4: an executed Store writes one memory word, at the address source1 +
    source2 + offset, and no register but the program counter, which moves
    by 1.  The word stored is the target register's value read after the
    increment: for target 15 it is the incremented program counter.  The
    condition becomes the sign flag of the address. *)
Theorem step_store (c : CPU) :
  register_file (registers c) ->
  in_range (fetched decode c) ->
  Z.land (condition c) (cond (fetched decode c)) <> 0 ->
  op (fetched decode c) = STORE ->
  exists c' t addr val,
    step decode c = Ok (tt, c', t) /\
    addr = reg c (reg_src1 (fetched decode c))
           + (reg c (reg_src2 (fetched decode c)) + offset (fetched decode c)) /\
    val = (if reg_target (fetched decode c) =? 15 then pc c + 1
           else reg c (reg_target (fetched decode c))) /\
    memory c' = Memory_put (memory c) addr val /\
    Memory_get (memory c') addr = val /\
    (forall a : Z, a <> addr -> Memory_get (memory c') a = Memory_get (memory c) a) /\
    halted c' = halted c /\
    condition c' =
      (if addr =? 0 then CondFlag_Z else if addr <? 0 then CondFlag_M else CondFlag_P) /\
    pc c' = pc c + 1 /\
    (forall n : nat, n <> 15%nat -> registers c' !! n = registers c !! n).
Proof.
  intros Hrs Hin Hp Hop.
  assert (Happ : ALU_apply (op (fetched decode c)) (reg c (reg_src1 (fetched decode c)))
                   (reg c (reg_src2 (fetched decode c)) + offset (fetched decode c))
                 = Ok (reg c (reg_src1 (fetched decode c))
                       + (reg c (reg_src2 (fetched decode c)) + offset (fetched decode c))))
    by (rewrite Hop; reflexivity).
  destruct (step_exec_plain c _ Hrs Hin Hp Happ) as [t Hst].
  cbv zeta in Hst. rewrite Hop in Hst. destruct Hin as (Ht & _ & _).
  set (addr := reg c (reg_src1 (fetched decode c))
               + (reg c (reg_src2 (fetched decode c)) + offset (fetched decode c))) in *.
  set (nc := if addr =? 0 then CondFlag_Z else if addr <? 0 then CondFlag_M else CondFlag_P) in *.
  rewrite (reg_after_increment c nc _ Hrs Ht) in Hst.
  eexists _, t, addr, _. split; [exact Hst |].
  split; [reflexivity |]. split; [reflexivity |]. split; [reflexivity |].
  split; [cbn [memory set_memory]; unfold Memory_get, Memory_put; rewrite Z.eqb_refl; reflexivity |].
  split.
  { intros a Ha. cbn [memory set_memory]. unfold Memory_get, Memory_put.
    destruct (Z.eqb_spec a addr); [contradiction | reflexivity]. }
  split; [reflexivity |]. split; [reflexivity |].
  split.
  - unfold pc at 1. apply reg_write_same; [exact Hrs | lia].
  - intros n Hn. cbn [registers set_memory set_registers]. apply write_reg_lookup_ne. exact Hn.
Qed.

(** X5: an executed Halt sets [halted], moves the program counter by 1 and
    sets the condition to Zero (the sign flag of its result 0); memory and
    the other registers are untouched. *)
Theorem step_halt (c : CPU) :
  register_file (registers c) ->
  in_range (fetched decode c) ->
  Z.land (condition c) (cond (fetched decode c)) <> 0 ->
  op (fetched decode c) = HALT ->
  exists c' t,
    step decode c = Ok (tt, c', t) /\
    halted c' = true /\
    condition c' = CondFlag_Z /\
    memory c' = memory c /\
    pc c' = pc c + 1 /\
    (forall n : nat, n <> 15%nat -> registers c' !! n = registers c !! n).
Proof.
  intros Hrs Hin Hp Hop.
  assert (Happ : ALU_apply (op (fetched decode c)) (reg c (reg_src1 (fetched decode c)))
                   (reg c (reg_src2 (fetched decode c)) + offset (fetched decode c))
                 = Ok 0)
    by (rewrite Hop; reflexivity).
  destruct (step_exec_plain c _ Hrs Hin Hp Happ) as [t Hst].
  cbv zeta in Hst. rewrite Hop in Hst.
  eexists _, t. split; [exact Hst |].
  repeat (split; [reflexivity |]). split.
  - unfold pc at 1. apply reg_write_same; [exact Hrs | lia].
  - intros n Hn. cbn [registers set_halt set_registers]. apply write_reg_lookup_ne. exact Hn.
Qed.

(** X6: a Store followed by a Load from the same address.  When a step
    executes a Store and the next step executes a Load whose address is the
    one the Store wrote, the Load's target register (1..15) ends up holding
    the word the Store stored. *)
Theorem store_then_load (c c1 : CPU) (t1 : list Action) :
  register_file (registers c) ->
  in_range (fetched decode c) ->
  Z.land (condition c) (cond (fetched decode c)) <> 0 ->
  op (fetched decode c) = STORE ->
  step decode c = Ok (tt, c1, t1) ->
  in_range (fetched decode c1) ->
  Z.land (condition c1) (cond (fetched decode c1)) <> 0 ->
  op (fetched decode c1) = LOAD ->
  reg c1 (reg_src1 (fetched decode c1))
  + (reg c1 (reg_src2 (fetched decode c1)) + offset (fetched decode c1))
  = reg c (reg_src1 (fetched decode c))
    + (reg c (reg_src2 (fetched decode c)) + offset (fetched decode c)) ->
  1 <= reg_target (fetched decode c1) < 16 ->
  exists c2 t2,
    step decode c1 = Ok (tt, c2, t2) /\
    reg c2 (reg_target (fetched decode c1))
    = (if reg_target (fetched decode c) =? 15 then pc c + 1
       else reg c (reg_target (fetched decode c))).
Proof.
  intros Hrs Hin Hp Hop Hst Hin1 Hp1 Hop1 Haddr Ht2.
  assert (Happ : ALU_apply (op (fetched decode c)) (reg c (reg_src1 (fetched decode c)))
                   (reg c (reg_src2 (fetched decode c)) + offset (fetched decode c))
                 = Ok (reg c (reg_src1 (fetched decode c))
                       + (reg c (reg_src2 (fetched decode c)) + offset (fetched decode c))))
    by (rewrite Hop; reflexivity).
  destruct (step_exec_plain c _ Hrs Hin Hp Happ) as [t Hst0].
  cbv zeta in Hst0. rewrite Hop, Hst in Hst0. injection Hst0 as Hc1 _.
  rewrite (reg_after_increment c _ _ Hrs (proj1 Hin)) in Hc1.
  assert (Hrs1 : register_file (registers c1))
    by (rewrite Hc1; apply write_reg_file; exact Hrs).
  assert (Happ1 : ALU_apply (op (fetched decode c1)) (reg c1 (reg_src1 (fetched decode c1)))
                    (reg c1 (reg_src2 (fetched decode c1)) + offset (fetched decode c1))
                  = Ok (reg c (reg_src1 (fetched decode c))
                        + (reg c (reg_src2 (fetched decode c)) + offset (fetched decode c))))
    by (rewrite Hop1, <- Haddr; reflexivity).
  destruct (step_exec_plain c1 _ Hrs1 Hin1 Hp1 Happ1) as [t2 Hst1].
  cbv zeta in Hst1. rewrite Hop1 in Hst1.
  eexists _, t2. split; [exact Hst1 |].
  assert (Hmem : Memory_get (memory c1)
                   (reg c (reg_src1 (fetched decode c))
                    + (reg c (reg_src2 (fetched decode c)) + offset (fetched decode c)))
                 = if reg_target (fetched decode c) =? 15 then pc c + 1
                   else reg c (reg_target (fetched decode c))).
  { rewrite Hc1. cbn [memory set_memory]. unfold Memory_get, Memory_put.
    rewrite Z.eqb_refl. reflexivity. }
  rewrite Hmem.
  apply reg_write_same; [| exact Ht2].
  apply write_reg_file. exact Hrs1.
Qed.

(** X7: what a step never touches.  Every step returns; memory changes only
    when a Store is executed; no register other than 15 and the target
    changes, and when the test fails or a Halt or Store is executed none but
    15; [halted] is never cleared; the zero register still reads 0. *)
Theorem step_frame (c : CPU) :
  register_file (registers c) ->
  in_range (fetched decode c) ->
  exists c' t,
    step decode c = Ok (tt, c', t) /\
    (Z.land (condition c) (cond (fetched decode c)) = 0 \/
     op (fetched decode c) <> STORE ->
     memory c' = memory c) /\
    (forall n : nat,
        n <> 15%nat -> n <> Z.to_nat (reg_target (fetched decode c)) ->
        registers c' !! n = registers c !! n) /\
    (Z.land (condition c) (cond (fetched decode c)) = 0 \/
     op (fetched decode c) = HALT \/ op (fetched decode c) = STORE ->
     forall n : nat, n <> 15%nat -> registers c' !! n = registers c !! n) /\
    (halted c = true -> halted c' = true) /\
    length (registers c') = 16%nat /\
    reg c' 0 = 0.
Proof.
  intros Hrs Hin.
  destruct (step_total decode c Hrs Hin) as (c' & t & Hst & Hrs' & Hh & _).
  exists c', t. split; [exact Hst |].
  assert (Htail : (halted c = true -> halted c' = true) /\
                  length (registers c') = 16%nat /\ reg c' 0 = 0).
  { split; [intros Hc; rewrite Hh, Hc; reflexivity |].
    split; [apply register_file_length; exact Hrs' | apply reg_zero; exact Hrs']. }
  destruct (passes decode c) eqn:Hp.
  - destruct (alu_outcome_total decode c) as (res & nc & Halu).
    pose proof (step_exec decode c res nc Hrs Hin Hp Halu) as Hstep.
    cbv zeta in Hstep. rewrite Hst in Hstep. injection Hstep as Hc' _.
    apply passes_true in Hp.
    assert (Hadv : forall n : nat, n <> 15%nat ->
                     registers (advanced c nc) !! n = registers c !! n)
      by (intros n Hn; apply write_reg_lookup_ne; exact Hn).
    split; [| split; [| split; [| exact Htail]]].
    + intros [Hz | Hns]; [contradiction |].
      rewrite Hc'. destruct (op (fetched decode c)); try contradiction;
        cbn [memory set_halt set_registers]; apply advanced_memory.
    + intros n Hn15 Hnt. rewrite Hc'.
      destruct (op (fetched decode c));
        cbn [registers set_halt set_registers set_memory];
        rewrite ?write_reg_lookup_ne by exact Hnt; apply Hadv; exact Hn15.
    + intros [Hz | [Hop | Hop]]; [contradiction | |]; intros n Hn;
        rewrite Hc', Hop; cbn [registers set_halt set_memory]; apply Hadv; exact Hn.
  - rewrite (step_skip decode c Hrs Hp) in Hst. injection Hst as <- _.
    split; [intros _; reflexivity |].
    split; [intros n Hn _; apply write_reg_lookup_ne; exact Hn |].
    split; [intros _ n Hn; apply write_reg_lookup_ne; exact Hn | exact Htail].
Qed.

(** X9: only arithmetic failures become Fault.  When the condition test
    passes and the decoded first source index is outside -16..15, or it is
    in 0..15 and the second one is outside -16..15, the step raises
    IndexError to its caller. *)
Theorem step_index_error (c : CPU) :
  register_file (registers c) ->
  Z.land (condition c) (cond (fetched decode c)) <> 0 ->
  (reg_src1 (fetched decode c) < -16 \/ 16 <= reg_src1 (fetched decode c)) \/
  (0 <= reg_src1 (fetched decode c) < 16 /\
   (reg_src2 (fetched decode c) < -16 \/ 16 <= reg_src2 (fetched decode c))) ->
  step decode c = Raise IndexError.
Proof.
  intros Hrs Hp Hbad. apply passes_true in Hp.
  assert (Hraise : forall i : Z, i < -16 \/ 16 <= i ->
                     forall (B : Type) (f : Z -> M B),
                       M_bind (reg_get i) f c = Raise IndexError).
  { intros i Hi B f. unfold M_bind, reg_get, py_index.
    rewrite (register_file_length _ Hrs).
    replace ((0 <=? i) && (i <? Z.of_nat 16)) with false
      by (symmetry; apply andb_false_iff; rewrite Z.leb_gt, Z.ltb_ge; lia).
    replace ((- Z.of_nat 16 <=? i) && (i <? 0)) with false
      by (symmetry; apply andb_false_iff; rewrite Z.leb_gt, Z.ltb_ge; lia).
    reflexivity. }
  unfold step. do 5 exec_call.
  unfold passes, fetched, pc in *. cbv zeta. rewrite Hp.
  destruct Hbad as [H1 | [H1 H2]].
  - rewrite Hraise by exact H1. reflexivity.
  - exec_call. rewrite Hraise by exact H2. reflexivity.
Qed.

End Opcodes.

Section Lifetime.

Variable decode : Z -> Instruction.
Hypothesis decode_in_range : forall w : Z, in_range (decode w).

(** X8: in every reachable state the register file has 16 registers, the
    first is the zero register and reads 0, the other 15 are plain
    registers; and from every reachable state a step returns, it does not
    raise. *)
Theorem reachable_invariants (c : CPU) :
  reachable decode c ->
  length (registers c) = 16%nat /\
  registers c !! 0%nat = Some ZeroRegister /\
  reg c 0 = 0 /\
  (forall n : nat, (1 <= n < 16)%nat -> exists v, registers c !! n = Some (PlainRegister v)) /\
  exists c' t, step decode c = Ok (tt, c', t) /\ reachable decode c'.
Proof using decode_in_range.
  intros Hreach.
  pose proof (reachable_register_file decode decode_in_range c Hreach) as Hrs.
  split; [apply register_file_length; exact Hrs |].
  split; [destruct Hrs as (vs & _ & ->); reflexivity |].
  split; [apply reg_zero; exact Hrs |].
  split.
  - intros n Hn. destruct Hrs as (vs & Hlen & ->).
    destruct n as [|n]; [lia |].
    destruct (lookup_lt_is_Some_2 vs n) as [v Hv]; [lia |].
    exists v. change ((PlainRegister <$> vs) !! n = Some (PlainRegister v)).
    rewrite list_lookup_fmap, Hv. reflexivity.
  - destruct (step_total decode c Hrs (decode_in_range _)) as (c' & t & Hst & _).
    exists c', t. split; [exact Hst |]. exact (reach_step decode c c' t Hreach Hst).
Qed.

(** X10: when [run] returns, the condition tells why the loop stopped: it
    is Fault when the last step got Fault from the arithmetic unit, and
    Zero when the last step executed a Halt without one. *)
Theorem run_final_condition (c c' : CPU) (from_addr : Z) (fuel : nat) (t : list Action) :
  register_file (registers c) ->
  run decode fuel from_addr c = Some (Ok (tt, c', t)) ->
  halted c' = true /\
  (condition c' = CondFlag_Z \/ condition c' = CondFlag_V) /\
  exists cn tn,
    step decode cn = Ok (tt, c', tn) /\
    (faults decode cn = true -> condition c' = CondFlag_V) /\
    (faults decode cn = false ->
     condition c' = CondFlag_Z /\ op (fetched decode cn) = HALT).
Proof using decode_in_range.
  intros Hrs Hrun. unfold run in Hrun.
  rewrite (run_setup_ok c from_addr Hrs) in Hrun.
  set (c0 := set_registers (set_halt c false) (write_reg (registers c) 15 from_addr)) in *.
  assert (Hrs0 : register_file (registers c0)) by (apply write_reg_file; exact Hrs).
  pose proof (run_loop_spec decode decode_in_range fuel c0 Hrs0 eq_refl) as Hspec.
  destruct (run_loop decode fuel c0) as [[[[[] c2] t2]|e]|]; try discriminate.
  injection Hrun as -> _.
  destruct Hspec as (Hh & n & cn & _ & Hn & Hstop & HSn & _).
  destruct (steps_total decode decode_in_range n c0 Hrs0) as (cn0 & Hn0 & Hrsn).
  rewrite Hn in Hn0. injection Hn0 as <-.
  destruct (step_total decode cn Hrsn (decode_in_range _))
    as (c1 & t1 & Hst & _ & _ & _ & Hexec).
  rewrite steps_snoc, Hn, Hst in HSn. injection HSn as ->.
  assert (Hp : passes decode cn = true).
  { unfold halts, faults in Hstop. destruct (passes decode cn); [reflexivity | discriminate]. }
  destruct (Hexec Hp) as [res Halu].
  assert (Hcases : (faults decode cn = true -> condition c' = CondFlag_V) /\
                   (faults decode cn = false ->
                    condition c' = CondFlag_Z /\ op (fetched decode cn) = HALT)).
  { unfold halts, faults in *. rewrite Hp, Halu in *. simpl in *. split.
    - intros Hf. apply Z.eqb_eq. exact Hf.
    - intros Hf. rewrite Hf, orb_false_r in Hstop.
      destruct (op (fetched decode cn)) eqn:Hop; try discriminate Hstop.
      split; [| reflexivity].
      unfold alu_outcome in Halu. rewrite Hop in Halu.
      injection Halu as _ <-. reflexivity. }
  split; [exact Hh |]. split.
  - destruct (faults decode cn); [right | left]; apply Hcases; reflexivity.
  - exists cn, t1. split; [exact Hst | exact Hcases].
Qed.

End Lifetime.

(** ** The opcode theorems at concrete inputs *)

Lemma cpu_r1_42_file : register_file (registers cpu_r1_42).
Proof.
  exists (42 :: replicate 14 0). split; reflexivity.
Qed.

Lemma cpu_after_store_file : register_file (registers cpu_after_store).
Proof.
  exists (42 :: replicate 13 0 ++ [1]). split; reflexivity.
Qed.

(** [step_arith] on the first step of the end-to-end program. *)
Lemma step_arith_witness :
  register_file (registers (CPU_init prog_add_halt)) /\
  in_range (fetched sample_decode (CPU_init prog_add_halt)) /\
  Z.land (condition (CPU_init prog_add_halt))
         (cond (fetched sample_decode (CPU_init prog_add_halt))) <> 0 /\
  In (op (fetched sample_decode (CPU_init prog_add_halt))) [ADD; SUB; MUL; DIV] /\
  ALU_apply (op (fetched sample_decode (CPU_init prog_add_halt)))
    (reg (CPU_init prog_add_halt) (reg_src1 (fetched sample_decode (CPU_init prog_add_halt))))
    (reg (CPU_init prog_add_halt) (reg_src2 (fetched sample_decode (CPU_init prog_add_halt)))
     + offset (fetched sample_decode (CPU_init prog_add_halt))) = Ok 5 /\
  exists c' t,
    step sample_decode (CPU_init prog_add_halt) = Ok (tt, c', t) /\
    memory c' = memory (CPU_init prog_add_halt) /\
    condition c' = CondFlag_P.
Proof.
  assert (Hp : Z.land (condition (CPU_init prog_add_halt))
                 (cond (fetched sample_decode (CPU_init prog_add_halt))) <> 0)
    by (vm_compute; discriminate).
  assert (Hop : In (op (fetched sample_decode (CPU_init prog_add_halt))) [ADD; SUB; MUL; DIV])
    by (left; reflexivity).
  split; [apply register_file_init |].
  split; [apply sample_decode_in_range |].
  split; [exact Hp |]. split; [exact Hop |]. split; [reflexivity |].
  destruct (step_arith sample_decode (CPU_init prog_add_halt) 5
              (register_file_init prog_add_halt) (sample_decode_in_range _) Hp Hop eq_refl)
    as (c' & t & Hst & Hm & _ & Hc & _).
  exists c', t. split; [exact Hst |]. split; [exact Hm | exact Hc].
Defined.

(** [step_load] on a fresh CPU whose first instruction loads address 3. *)
Lemma step_load_witness :
  register_file (registers (CPU_init prog_load)) /\
  in_range (fetched sample_decode (CPU_init prog_load)) /\
  Z.land (condition (CPU_init prog_load))
         (cond (fetched sample_decode (CPU_init prog_load))) <> 0 /\
  op (fetched sample_decode (CPU_init prog_load)) = LOAD /\
  exists c' t,
    step sample_decode (CPU_init prog_load) = Ok (tt, c', t) /\
    memory c' = memory (CPU_init prog_load) /\
    halted c' = halted (CPU_init prog_load).
Proof.
  assert (Hp : Z.land (condition (CPU_init prog_load))
                 (cond (fetched sample_decode (CPU_init prog_load))) <> 0)
    by (vm_compute; discriminate).
  split; [apply register_file_init |].
  split; [apply sample_decode_in_range |].
  split; [exact Hp |]. split; [reflexivity |].
  destruct (step_load sample_decode (CPU_init prog_load)
              (register_file_init prog_load) (sample_decode_in_range _) Hp eq_refl)
    as (c' & t & addr & Hst & _ & Hm & Hh & _).
  exists c', t. split; [exact Hst |]. split; [exact Hm | exact Hh].
Defined.

(** [step_store] on a CPU whose register 1 holds 42 and whose first
    instruction stores it at address 3. *)
Lemma step_store_witness :
  register_file (registers cpu_r1_42) /\
  in_range (fetched sample_decode cpu_r1_42) /\
  Z.land (condition cpu_r1_42) (cond (fetched sample_decode cpu_r1_42)) <> 0 /\
  op (fetched sample_decode cpu_r1_42) = STORE /\
  exists c' t,
    step sample_decode cpu_r1_42 = Ok (tt, c', t) /\
    halted c' = halted cpu_r1_42 /\
    pc c' = pc cpu_r1_42 + 1.
Proof.
  assert (Hp : Z.land (condition cpu_r1_42) (cond (fetched sample_decode cpu_r1_42)) <> 0)
    by (vm_compute; discriminate).
  split; [exact cpu_r1_42_file |].
  split; [apply sample_decode_in_range |].
  split; [exact Hp |]. split; [reflexivity |].
  destruct (step_store sample_decode cpu_r1_42
              cpu_r1_42_file (sample_decode_in_range _) Hp eq_refl)
    as (c' & t & addr & val & Hst & _ & _ & _ & _ & _ & Hh & _ & Hpc & _).
  exists c', t. split; [exact Hst |]. split; [exact Hh | exact Hpc].
Defined.

(** [step_halt] on a fresh CPU whose first instruction is Halt. *)
Lemma step_halt_witness :
  register_file (registers (CPU_init prog_halt)) /\
  in_range (fetched sample_decode (CPU_init prog_halt)) /\
  Z.land (condition (CPU_init prog_halt))
         (cond (fetched sample_decode (CPU_init prog_halt))) <> 0 /\
  op (fetched sample_decode (CPU_init prog_halt)) = HALT /\
  exists c' t,
    step sample_decode (CPU_init prog_halt) = Ok (tt, c', t) /\
    halted c' = true /\
    condition c' = CondFlag_Z.
Proof.
  assert (Hp : Z.land (condition (CPU_init prog_halt))
                 (cond (fetched sample_decode (CPU_init prog_halt))) <> 0)
    by (vm_compute; discriminate).
  split; [apply register_file_init |].
  split; [apply sample_decode_in_range |].
  split; [exact Hp |]. split; [reflexivity |].
  destruct (step_halt sample_decode (CPU_init prog_halt)
              (register_file_init prog_halt) (sample_decode_in_range _) Hp eq_refl)
    as (c' & t & Hst & Hh & Hc & _).
  exists c', t. split; [exact Hst |]. split; [exact Hh | exact Hc].
Defined.

(** [store_then_load]: register 1 holds 42, the first instruction stores it
    at address 3 and the second loads address 3 into register 2. *)
Lemma store_then_load_witness :
  exists t1,
    register_file (registers cpu_r1_42) /\
    in_range (fetched sample_decode cpu_r1_42) /\
    Z.land (condition cpu_r1_42) (cond (fetched sample_decode cpu_r1_42)) <> 0 /\
    op (fetched sample_decode cpu_r1_42) = STORE /\
    step sample_decode cpu_r1_42 = Ok (tt, cpu_after_store, t1) /\
    in_range (fetched sample_decode cpu_after_store) /\
    Z.land (condition cpu_after_store)
           (cond (fetched sample_decode cpu_after_store)) <> 0 /\
    op (fetched sample_decode cpu_after_store) = LOAD /\
    1 <= reg_target (fetched sample_decode cpu_after_store) < 16 /\
    exists c2 t2,
      step sample_decode cpu_after_store = Ok (tt, c2, t2) /\
      reg c2 (reg_target (fetched sample_decode cpu_after_store)) = 42.
Proof.
  assert (Hp : Z.land (condition cpu_r1_42) (cond (fetched sample_decode cpu_r1_42)) <> 0)
    by (vm_compute; discriminate).
  assert (Hp1 : Z.land (condition cpu_after_store)
                  (cond (fetched sample_decode cpu_after_store)) <> 0)
    by (vm_compute; discriminate).
  assert (Ht2 : 1 <= reg_target (fetched sample_decode cpu_after_store) < 16)
    by (split; [apply Z.leb_le | apply Z.ltb_lt]; reflexivity).
  eexists. split; [exact cpu_r1_42_file |].
  split; [apply sample_decode_in_range |].
  split; [exact Hp |]. split; [reflexivity |].
  split; [reflexivity |].
  split; [apply sample_decode_in_range |].
  split; [exact Hp1 |]. split; [reflexivity |]. split; [exact Ht2 |].
  exact (store_then_load sample_decode cpu_r1_42 cpu_after_store _
           cpu_r1_42_file (sample_decode_in_range _) Hp eq_refl eq_refl
           (sample_decode_in_range _) Hp1 eq_refl eq_refl Ht2).
Defined.

(** [step_frame] on the first step of the end-to-end program. *)
Lemma step_frame_witness :
  register_file (registers (CPU_init prog_add_halt)) /\
  in_range (fetched sample_decode (CPU_init prog_add_halt)) /\
  exists c' t,
    step sample_decode (CPU_init prog_add_halt) = Ok (tt, c', t) /\
    length (registers c') = 16%nat /\
    reg c' 0 = 0.
Proof.
  split; [apply register_file_init |].
  split; [apply sample_decode_in_range |].
  destruct (step_frame sample_decode (CPU_init prog_add_halt)
              (register_file_init prog_add_halt) (sample_decode_in_range _))
    as (c' & t & Hst & _ & _ & _ & _ & Hlen & Hz).
  exists c', t. split; [exact Hst |]. split; [exact Hlen | exact Hz].
Defined.

(** [step_index_error] with a decoder that hands out source register 16. *)
Lemma step_index_error_witness :
  register_file (registers (CPU_init prog_add_halt)) /\
  Z.land (condition (CPU_init prog_add_halt))
         (cond (fetched decode_src1_16 (CPU_init prog_add_halt))) <> 0 /\
  16 <= reg_src1 (fetched decode_src1_16 (CPU_init prog_add_halt)) /\
  step decode_src1_16 (CPU_init prog_add_halt) = Raise IndexError.
Proof.
  assert (Hp : Z.land (condition (CPU_init prog_add_halt))
                 (cond (fetched decode_src1_16 (CPU_init prog_add_halt))) <> 0)
    by (vm_compute; discriminate).
  assert (H16 : 16 <= reg_src1 (fetched decode_src1_16 (CPU_init prog_add_halt)))
    by (apply Z.leb_le; reflexivity).
  split; [apply register_file_init |]. split; [exact Hp |]. split; [exact H16 |].
  exact (step_index_error decode_src1_16 (CPU_init prog_add_halt)
           (register_file_init prog_add_halt) Hp (or_introl (or_intror H16))).
Defined.

(** [reachable_invariants] at a fresh CPU. *)
Lemma reachable_invariants_witness :
  (forall w : Z, in_range (sample_decode w)) /\
  reachable sample_decode (CPU_init prog_add_halt) /\
  length (registers (CPU_init prog_add_halt)) = 16%nat /\
  reg (CPU_init prog_add_halt) 0 = 0 /\
  exists c' t,
    step sample_decode (CPU_init prog_add_halt) = Ok (tt, c', t) /\
    reachable sample_decode c'.
Proof.
  split; [exact sample_decode_in_range |].
  split; [apply reach_init |].
  destruct (reachable_invariants sample_decode sample_decode_in_range
              (CPU_init prog_add_halt) (reach_init _ _))
    as (Hlen & _ & Hz & _ & Hstep).
  split; [exact Hlen |]. split; [exact Hz | exact Hstep].
Defined.

(** [run_final_condition] on the end-to-end program, which stops on Halt. *)
Lemma run_final_condition_witness :
  (forall w : Z, in_range (sample_decode w)) /\
  register_file (registers (CPU_init prog_add_halt)) /\
  exists c' t,
    run sample_decode 2 0 (CPU_init prog_add_halt) = Some (Ok (tt, c', t)) /\
    halted c' = true /\
    (condition c' = CondFlag_Z \/ condition c' = CondFlag_V).
Proof.
  split; [exact sample_decode_in_range |].
  split; [apply register_file_init |].
  eexists _, _. split; [reflexivity |].
  destruct (run_final_condition sample_decode sample_decode_in_range
              (CPU_init prog_add_halt) _ 0 2 _
              (register_file_init prog_add_halt) eq_refl)
    as (Hh & Hc & _).
  split; [exact Hh | exact Hc].
Defined.

(** ** The letter bag *)

Section BagLemmas.

Context {Char Letter : Type} `{Countable Letter} `{PyStr Char Letter}.

Implicit Types m : gmap Letter Z.

Lemma total_empty : total (∅ : gmap Letter Z) = 0.
Proof. unfold total. apply map_fold_empty. Qed.

Lemma total_insert m (i : Letter) (x : Z) :
  m !! i = None -> total (<[i := x]> m) = x + total m.
Proof.
  intros Hi. unfold total.
  apply (map_fold_insert_L (fun _ v acc => v + acc) 0 i x m); [| exact Hi].
  intros. lia.
Qed.

Lemma total_delete m (i : Letter) (x : Z) :
  m !! i = Some x -> total m = x + total (delete i m).
Proof.
  intros Hi. unfold total.
  apply (map_fold_delete_L (fun _ v acc => v + acc) 0 i x m); [| exact Hi].
  intros. lia.
Qed.

Lemma total_update m (i : Letter) (x y : Z) :
  m !! i = Some x -> total (<[i := y]> m) = total m - x + y.
Proof.
  intros Hi. rewrite (total_delete m i x Hi).
  rewrite <- insert_delete_eq. rewrite total_insert by apply lookup_delete_eq. lia.
Qed.

Lemma total_nonneg_zero m :
  map_Forall (fun _ v => 0 <= v) m ->
  0 <= total m /\ (total m = 0 <-> map_Forall (fun _ v => v = 0) m).
Proof.
  induction m as [|i x m Hi IH] using map_ind.
  - intros _. rewrite total_empty. split; [lia |]. split; [intros _; apply map_Forall_empty | reflexivity].
  - intros Hall. apply map_Forall_insert in Hall; [| exact Hi].
    destruct Hall as [Hx Hm]. destruct (IH Hm) as [Hge Hiff].
    rewrite total_insert by exact Hi. split; [lia |].
    rewrite map_Forall_insert by exact Hi. rewrite <- Hiff. lia.
Qed.

Lemma total_le m1 m2 :
  (forall k v, m1 !! k = Some v -> exists n, m2 !! k = Some n /\ v <= n) ->
  map_Forall (fun _ v => 0 <= v) m2 ->
  total m1 <= total m2.
Proof.
  revert m2. induction m1 as [|i x m1 Hi IH] using map_ind; intros m2 Hle Hpos.
  - rewrite total_empty. exact (proj1 (total_nonneg_zero m2 Hpos)).
  - destruct (Hle i x) as (n & Hn & Hxn); [apply lookup_insert_eq |].
    rewrite total_insert by exact Hi. rewrite (total_delete m2 i n Hn).
    assert (Hrest : total m1 <= total (delete i m2)).
    { apply IH.
      - intros k v Hk. assert (Hik : i <> k) by (intros ->; congruence).
        destruct (Hle k v) as (n' & Hn' & Hv);
          [rewrite lookup_insert_ne by exact Hik; exact Hk |].
        exists n'. split; [rewrite lookup_delete_ne by exact Hik; exact Hn' | exact Hv].
      - intros k v Hk. apply lookup_delete_Some in Hk as [_ Hk]. exact (Hpos k v Hk). }
    lia.
Qed.

Lemma add_letter_lookup m (i k : Letter) :
  add_letter m i !! k =
  if decide (i = k) then Some (default 0 (m !! i) + 1) else m !! k.
Proof.
  unfold add_letter. destruct (m !! i) as [n|] eqn:Hi; destruct (decide (i = k)) as [->|Hne].
  - rewrite lookup_insert_eq. reflexivity.
  - rewrite lookup_insert_ne by exact Hne. reflexivity.
  - rewrite lookup_insert_eq. reflexivity.
  - rewrite lookup_insert_ne by exact Hne. reflexivity.
Qed.

Lemma foldl_add_letter_lookup (normal : list Letter) m (k : Letter) :
  foldl add_letter m normal !! k =
  match occurrences normal k with
  | O => m !! k
  | S _ => Some (default 0 (m !! k) + Z.of_nat (occurrences normal k))
  end.
Proof.
  revert m. induction normal as [|i rest IH]; intros m; [reflexivity |].
  cbn [foldl]. rewrite IH. unfold occurrences. cbn [count_occ].
  rewrite add_letter_lookup.
  destruct (decide (i = k)) as [->|Hne].
  - destruct (decide (k = k)) as [_|Hkk]; [| contradiction].
    destruct (count_occ _ rest k); cbn [from_option id]; f_equal; lia.
  - reflexivity.
Qed.

Lemma total_add_letter m (i : Letter) : total (add_letter m i) = total m + 1.
Proof.
  unfold add_letter. destruct (m !! i) as [n|] eqn:Hi.
  - rewrite (total_update m i n _ Hi). lia.
  - rewrite total_insert by exact Hi. lia.
Qed.

Lemma total_foldl_add_letter (normal : list Letter) m :
  total (foldl add_letter m normal) = total m + Z.of_nat (length normal).
Proof.
  revert m. induction normal as [|i rest IH]; intros m; cbn [foldl length].
  - lia.
  - rewrite IH, total_add_letter. lia.
Qed.

Lemma occurrences_pos (l : list Letter) (k : Letter) :
  (0 < occurrences l k)%nat <-> In k l.
Proof.
  unfold occurrences. symmetry. apply count_occ_In.
Qed.

Lemma init_lookup (w : list Char) (k : Letter) :
  letters (LetterBag_init w) !! k =
  match occurrences (normalize (strip w)) k with
  | O => None
  | S n => Some (Z.of_nat (S n))
  end.
Proof.
  cbn [LetterBag_init letters]. rewrite foldl_add_letter_lookup.
  rewrite lookup_empty. destruct (occurrences _ k); [reflexivity |].
  cbn [from_option id]. f_equal.
Qed.

Lemma init_count (w : list Char) (k : Letter) :
  count (LetterBag_init w) k = Z.of_nat (occurrences (normalize (strip w)) k).
Proof.
  unfold count. rewrite init_lookup. destruct (occurrences _ k); reflexivity.
Qed.

Lemma init_bag_ok (w : list Char) : bag_ok (LetterBag_init w).
Proof.
  split.
  - cbn [LetterBag_init letters length_].
    rewrite total_foldl_add_letter, total_empty. lia.
  - intros k v Hk. rewrite init_lookup in Hk.
    destruct (occurrences _ k); [discriminate |]. injection Hk as <-. lia.
Qed.

(** X11: the bag of a word.  Its word is the stripped text; its length is
    the number of letters; its table has exactly the letters that occur,
    each with its number of occurrences (so every stored count is at least
    1); and the length is the sum of the counts. *)
Theorem LetterBag_init_counts (w : list Char) :
  word (LetterBag_init w) = strip w /\
  length_ (LetterBag_init w) = Z.of_nat (length (normalize (strip w))) /\
  (forall k : Letter,
      letters (LetterBag_init w) !! k = None <-> ~ In k (normalize (strip w))) /\
  (forall (k : Letter) (v : Z),
      letters (LetterBag_init w) !! k = Some v ->
      1 <= v /\ v = Z.of_nat (occurrences (normalize (strip w)) k)) /\
  (forall k : Letter,
      count (LetterBag_init w) k = Z.of_nat (occurrences (normalize (strip w)) k)) /\
  length_ (LetterBag_init w) = total (letters (LetterBag_init w)).
Proof.
  split; [reflexivity |]. split; [reflexivity |].
  split; [| split; [| split]].
  - intros k. rewrite init_lookup, <- occurrences_pos.
    destruct (occurrences _ k); split; intros Hk; try reflexivity; try discriminate; lia.
  - intros k v Hk. rewrite init_lookup in Hk.
    destruct (occurrences _ k) eqn:Hocc; [discriminate |].
    injection Hk as <-. split; [lia | reflexivity].
  - exact (init_count w).
  - exact (proj1 (init_bag_ok w)).
Qed.

Lemma contains_spec (self other : LetterBag Char Letter) :
  contains self other = true <->
  forall (k : Letter) (v : Z),
    letters other !! k = Some v ->
    exists n, letters self !! k = Some n /\ v <= n.
Proof.
  unfold contains. rewrite forallb_forall. split.
  - intros Hall k v Hk.
    specialize (Hall (k, v)). cbn [fst snd] in Hall.
    assert (Hin : In (k, v) (map_to_list (letters other)))
      by (apply list_elem_of_In, elem_of_map_to_list; exact Hk).
    specialize (Hall Hin).
    destruct (letters self !! k) as [n|]; [| discriminate].
    exists n. split; [reflexivity |].
    apply negb_true_iff, Z.ltb_ge in Hall. exact Hall.
  - intros Hall [k v] Hin. cbn [fst snd].
    apply list_elem_of_In, elem_of_map_to_list in Hin.
    destruct (Hall k v Hin) as (n & -> & Hle).
    apply negb_true_iff, Z.ltb_ge. exact Hle.
Qed.

Lemma take_item_done m (item : Letter * Z) (r : gmap Letter Z) :
  take_item m item = Done r <->
  exists n, m !! item.1 = Some n /\ item.2 <= n /\ r = <[item.1 := n - item.2]> m.
Proof.
  unfold take_item. destruct (m !! item.1) as [n|].
  - destruct (Z.leb_spec item.2 n) as [Hle|Hgt]; split.
    + intros [= <-]. eauto.
    + intros (n' & [= <-] & _ & ->). reflexivity.
    + discriminate.
    + intros (n' & [= <-] & Hle & _). lia.
  - split; [discriminate | intros (n' & Hn & _); discriminate].
Qed.

Lemma take_item_raised m (item : Letter * Z) (e : BagExn) :
  take_item m item = Raised e -> e = AssertionError.
Proof.
  unfold take_item. destruct (m !! item.1) as [n|];
    [destruct (item.2 <=? n) |]; congruence.
Qed.

(** The loop of [take] over items with distinct keys, when every item is
    covered: each listed key loses its value, the others stay. *)
Lemma take_items_done (items : list (Letter * Z)) m :
  NoDup items.*1 ->
  (forall k v, In (k, v) items -> exists n, m !! k = Some n /\ v <= n) ->
  exists r,
    take_items items m = Done r /\
    (forall k : Letter,
        r !! k =
        match (list_to_map items : gmap Letter Z) !! k with
        | Some v => (fun n => n - v) <$> m !! k
        | None => m !! k
        end) /\
    total r = total m - foldr (fun item s => item.2 + s) 0 items /\
    (map_Forall (fun _ v => 0 <= v) m -> map_Forall (fun _ v => 0 <= v) r).
Proof.
  revert m. induction items as [|[k v] rest IH]; intros m Hnd Hcov.
  - exists m. cbn. repeat split; try lia; auto.
  - cbn [fmap list_fmap fst] in Hnd. apply NoDup_cons in Hnd as [Hk Hnd].
    destruct (Hcov k v (or_introl eq_refl)) as (n & Hn & Hle).
    assert (Hitem : take_item m (k, v) = Done (<[k := n - v]> m))
      by (apply take_item_done; exists n; auto).
    destruct (IH (<[k := n - v]> m) Hnd) as (r & Hr & Hlook & Htot & Hpos).
    { intros k' v' Hin.
      assert (k <> k').
      { intros ->. apply Hk. apply list_elem_of_In.
        change k' with ((k', v').1). apply in_map. exact Hin. }
      rewrite lookup_insert_ne by assumption.
      apply Hcov. right. exact Hin. }
    exists r. cbn [take_items]. rewrite Hitem. split; [exact Hr |].
    split; [| split].
    + intros k'. rewrite Hlook. cbn [list_to_map foldr uncurry fst snd].
      destruct (decide (k = k')) as [<-|Hne].
      * rewrite lookup_insert_eq.
        rewrite (not_elem_of_list_to_map_1 rest k Hk).
        rewrite lookup_insert_eq, Hn. reflexivity.
      * rewrite !(lookup_insert_ne _ k k') by exact Hne. reflexivity.
    + rewrite Htot, (total_update m k n _ Hn). cbn [foldr snd]. lia.
    + intros Hm. apply Hpos. apply map_Forall_insert_2; [lia | exact Hm].
Qed.

(** The loop of [take] when some item is not covered: the assertion fails. *)
Lemma take_items_raised (items : list (Letter * Z)) m (k : Letter) (v : Z) :
  NoDup items.*1 ->
  In (k, v) items ->
  (forall n, m !! k = Some n -> n < v) ->
  take_items items m = Raised AssertionError.
Proof.
  revert m. induction items as [|[k0 v0] rest IH]; intros m Hnd Hin Hbad; [destruct Hin |].
  cbn [fmap list_fmap fst] in Hnd. apply NoDup_cons in Hnd as [Hk Hnd].
  cbn [take_items].
  destruct (take_item m (k0, v0)) as [l|e] eqn:Hitem.
  - apply take_item_done in Hitem as (n & Hn & Hle & ->). cbn [fst snd] in *.
    destruct Hin as [[= -> ->] | Hin].
    + specialize (Hbad n Hn). lia.
    + apply (IH _ Hnd Hin). intros n'.
      assert (k0 <> k).
      { intros ->. apply Hk. apply list_elem_of_In.
        change k with ((k, v).1). apply in_map. exact Hin. }
      rewrite lookup_insert_ne by assumption. apply Hbad.
  - rewrite (take_item_raised _ _ _ Hitem). reflexivity.
Qed.

Lemma total_to_list m :
  foldr (fun (item : Letter * Z) s => item.2 + s) 0 (map_to_list m) = total m.
Proof.
  unfold total. rewrite map_fold_foldr.
  induction (map_to_list m) as [|[k v] l IH]; [reflexivity |].
  cbn. rewrite IH. reflexivity.
Qed.

(** X12: [contains] is reflexive and transitive, and it compares keys, not
    only counts: when it holds, every key of [other], also one whose count
    is 0, is a key of [self] with at least that count. *)
Theorem contains_order :
  (forall bag : LetterBag Char Letter, contains bag bag = true) /\
  (forall a b c : LetterBag Char Letter,
      contains a b = true -> contains b c = true -> contains a c = true) /\
  (forall self other : LetterBag Char Letter,
      contains self other = true ->
      forall k : Letter,
        is_Some (letters other !! k) ->
        is_Some (letters self !! k) /\ count other k <= count self k) /\
  (forall (self other : LetterBag Char Letter) (k : Letter),
      is_Some (letters other !! k) ->
      letters self !! k = None ->
      contains self other = false).
Proof.
  split; [| split; [| split]].
  - intros bag. apply contains_spec. intros k v Hk. exists v. split; [exact Hk | lia].
  - intros a b c Hab Hbc. rewrite contains_spec in *.
    intros k v Hk. destruct (Hbc k v Hk) as (n & Hn & Hle).
    destruct (Hab k n Hn) as (n' & Hn' & Hle'). exists n'. split; [exact Hn' | lia].
  - intros self other Hc k [v Hk]. rewrite contains_spec in Hc.
    destruct (Hc k v Hk) as (n & Hn & Hle).
    unfold count. rewrite Hk, Hn. split; [eauto | exact Hle].
  - intros self other k [v Hk] Hnone.
    destruct (contains self other) eqn:Hc; [| reflexivity].
    rewrite contains_spec in Hc. destruct (Hc k v Hk) as (n & Hn & _).
    rewrite Hnone in Hn. discriminate.
Qed.

Lemma forallb_false {A : Type} (f : A -> bool) (l : list A) :
  forallb f l = false -> exists x, In x l /\ f x = false.
Proof.
  induction l as [|a l IH]; [discriminate |].
  cbn [forallb]. destruct (f a) eqn:Hfa.
  - intros Hl. destruct (IH Hl) as (x & Hin & Hx). exists x. split; [right |]; assumption.
  - intros _. exists a. split; [left; reflexivity | exact Hfa].
Qed.

Lemma contains_false (self other : LetterBag Char Letter) :
  contains self other = false ->
  exists k v, letters other !! k = Some v /\
              forall n, letters self !! k = Some n -> n < v.
Proof.
  intros Hc. apply forallb_false in Hc as ([k v] & Hin & Hf). cbn [fst snd] in Hf.
  apply list_elem_of_In, elem_of_map_to_list in Hin.
  exists k, v. split; [exact Hin |].
  intros n Hn. rewrite Hn in Hf.
  apply negb_false_iff, Z.ltb_lt in Hf. exact Hf.
Qed.

Lemma take_not_contained (self other : LetterBag Char Letter) :
  contains self other = false -> take self other = Raised AssertionError.
Proof.
  intros Hc. destruct (contains_false self other Hc) as (k & v & Hk & Hbad).
  unfold take. cbn [copy letters].
  rewrite (take_items_raised (map_to_list (letters other)) (letters self) k v
             (NoDup_fst_map_to_list _)); [reflexivity | | exact Hbad].
  apply list_elem_of_In, elem_of_map_to_list. exact Hk.
Qed.

Lemma len_done (bag : LetterBag Char Letter) (n : Z) :
  len bag = Done n <-> len_ok bag /\ n = length_ bag.
Proof.
  unfold len, len_ok.
  destruct (Z.ltb_spec (length_ bag) 0); [split; [discriminate | lia] |].
  destruct (Z.ltb_spec (@maxsize Char Letter _) (length_ bag)); [split; [discriminate | lia] |].
  split; [intros [= <-]; lia | intros [_ ->]; reflexivity].
Qed.

Lemma len_ok_done (bag : LetterBag Char Letter) :
  len_ok bag -> len bag = Done (length_ bag).
Proof.
  intros Hok. apply len_done. split; [exact Hok | reflexivity].
Qed.

Lemma len_negative (bag : LetterBag Char Letter) :
  length_ bag < 0 -> len bag = Raised ValueError.
Proof.
  intros Hneg. unfold len. destruct (Z.ltb_spec (length_ bag) 0); [reflexivity | lia].
Qed.

Lemma len_too_long (bag : LetterBag Char Letter) :
  0 <= length_ bag -> too_long bag -> len bag = Raised OverflowError.
Proof.
  unfold len, too_long. intros Hge Hlong.
  destruct (Z.ltb_spec (length_ bag) 0); [lia |].
  destruct (Z.ltb_spec (@maxsize Char Letter _) (length_ bag)); [reflexivity | lia].
Qed.

Lemma bag_ok_nonneg (bag : LetterBag Char Letter) : bag_ok bag -> 0 <= length_ bag.
Proof.
  intros [Hl Hp]. destruct (total_nonneg_zero _ Hp) as [Hge _]. lia.
Qed.

(** A bag holds no more letters than a bag that contains it. *)
Lemma contains_length_le (self other : LetterBag Char Letter) :
  bag_ok self -> bag_ok other -> contains self other = true ->
  length_ other <= length_ self.
Proof.
  intros [Hls Hps] [Hlo _] Hc. rewrite Hls, Hlo.
  apply total_le; [apply contains_spec; exact Hc | exact Hps].
Qed.

(** The loop of [take] when [self] contains [other]. *)
Lemma take_contained (self other : LetterBag Char Letter) :
  contains self other = true ->
  exists r,
    take_items (map_to_list (letters other)) (letters self) = Done r /\
    (forall k : Letter,
        r !! k =
        match letters other !! k with
        | Some v => (fun n => n - v) <$> letters self !! k
        | None => letters self !! k
        end) /\
    total r = total (letters self) - total (letters other) /\
    (map_Forall (fun _ v => 0 <= v) (letters self) -> map_Forall (fun _ v => 0 <= v) r).
Proof.
  intros Hc. rewrite contains_spec in Hc.
  destruct (take_items_done (map_to_list (letters other)) (letters self)
              (NoDup_fst_map_to_list _)) as (r & Hr & Hlook & Htot & Hpos).
  { intros k v Hin. apply Hc. apply elem_of_map_to_list, list_elem_of_In. exact Hin. }
  rewrite list_to_map_to_list in Hlook. rewrite total_to_list in Htot.
  exists r. auto.
Qed.

(** What [take] does after its loop: the two calls of [len], in this order. *)
Lemma take_after_loop (self other : LetterBag Char Letter) (r : gmap Letter Z) :
  take_items (map_to_list (letters other)) (letters self) = Done r ->
  take self other =
  match len self with
  | Raised e => Raised e
  | Done n_bag =>
      match len other with
      | Raised e => Raised e
      | Done n_other =>
          Done {| word := word self; length_ := n_bag - n_other; letters := r |}
      end
  end.
Proof.
  intros Hr. unfold take, len. cbn [copy letters length_ word]. rewrite Hr. reflexivity.
Qed.

Lemma take_done (self other : LetterBag Char Letter) :
  contains self other = true ->
  len_ok self ->
  len_ok other ->
  exists bag,
    take self other = Done bag /\
    word bag = word self /\
    length_ bag = length_ self - length_ other /\
    (forall k : Letter,
        letters bag !! k =
        match letters other !! k with
        | Some v => (fun n => n - v) <$> letters self !! k
        | None => letters self !! k
        end).
Proof.
  intros Hc Hs Ho.
  destruct (take_contained self other Hc) as (r & Hr & Hlook & _).
  rewrite (take_after_loop self other r Hr), (len_ok_done self Hs), (len_ok_done other Ho).
  eexists. split; [reflexivity |]. cbn [word length_ letters].
  split; [reflexivity |]. split; [reflexivity | exact Hlook].
Qed.

(** When [take] returns, [self] contains [other], both lengths are lengths
    that [len] returns, and the result is the one of [take_done]. *)
Lemma take_returned (self other bag : LetterBag Char Letter) :
  take self other = Done bag ->
  contains self other = true /\ len_ok self /\ len_ok other /\
  exists r,
    take_items (map_to_list (letters other)) (letters self) = Done r /\
    bag = {| word := word self; length_ := length_ self - length_ other; letters := r |}.
Proof.
  intros Htake.
  destruct (contains self other) eqn:Hc.
  2: { rewrite (take_not_contained self other Hc) in Htake. discriminate. }
  destruct (take_contained self other Hc) as (r & Hr & _).
  rewrite (take_after_loop self other r Hr) in Htake.
  destruct (len self) as [n_bag|e] eqn:Hs; [| discriminate].
  destruct (len other) as [n_other|e] eqn:Ho; [| discriminate].
  apply len_done in Hs as [Hs ->]. apply len_done in Ho as [Ho ->].
  injection Htake as <-.
  split; [reflexivity |]. split; [exact Hs |]. split; [exact Ho |].
  exists r. split; [exact Hr | reflexivity].
Qed.

(** X13: [take] returns exactly when [contains] holds and both lengths are
    lengths that [len] returns.  If [self] does not contain [other] the
    assertion fails, whatever the lengths are.  If it does and both lengths
    lie between 0 and [sys.maxsize], the result keeps [self]'s word and
    [self]'s keys, each count is reduced by [other]'s count, letters that
    reach 0 stay in the table, and the length is the difference of the
    lengths.  Otherwise [len(bag)], and after it [len(other)], raises
    [ValueError] for a negative length and [OverflowError] for one above
    [sys.maxsize]. *)
Theorem take_iff_contains (self other : LetterBag Char Letter) :
  (contains self other = false -> take self other = Raised AssertionError) /\
  (contains self other = true ->
   len_ok self -> len_ok other ->
   exists bag,
     take self other = Done bag /\
     word bag = word self /\
     length_ bag = length_ self - length_ other /\
     (forall k : Letter, count bag k = count self k - count other k) /\
     (forall k : Letter, is_Some (letters bag !! k) <-> is_Some (letters self !! k))) /\
  (contains self other = true ->
   length_ self < 0 ->
   take self other = Raised ValueError) /\
  (contains self other = true ->
   0 <= length_ self -> too_long self ->
   take self other = Raised OverflowError) /\
  (contains self other = true ->
   len_ok self -> length_ other < 0 ->
   take self other = Raised ValueError) /\
  (contains self other = true ->
   len_ok self -> 0 <= length_ other -> too_long other ->
   take self other = Raised OverflowError) /\
  (forall bag : LetterBag Char Letter,
      take self other = Done bag ->
      contains self other = true /\ len_ok self /\ len_ok other).
Proof.
  split; [apply take_not_contained |].
  split; [| split; [| split; [| split; [| split]]]].
  - intros Hc Hs Ho.
    destruct (take_done self other Hc Hs Ho) as (bag & Htake & Hw & Hl & Hlook).
    rewrite contains_spec in Hc.
    exists bag. split; [exact Htake |]. split; [exact Hw |]. split; [exact Hl |].
    split.
    + intros k. unfold count. rewrite Hlook.
      destruct (letters other !! k) as [v|] eqn:Hk; cbn [from_option id]; [| lia].
      destruct (Hc k v Hk) as (n & -> & _). reflexivity.
    + intros k. rewrite Hlook.
      destruct (letters other !! k) as [v|]; [| reflexivity].
      rewrite fmap_is_Some. reflexivity.
  - intros Hc Hneg. destruct (take_contained self other Hc) as (r & Hr & _).
    rewrite (take_after_loop self other r Hr), (len_negative self Hneg). reflexivity.
  - intros Hc Hge Hlong. destruct (take_contained self other Hc) as (r & Hr & _).
    rewrite (take_after_loop self other r Hr), (len_too_long self Hge Hlong). reflexivity.
  - intros Hc Hs Hneg. destruct (take_contained self other Hc) as (r & Hr & _).
    rewrite (take_after_loop self other r Hr), (len_ok_done self Hs),
      (len_negative other Hneg).
    reflexivity.
  - intros Hc Hs Hge Hlong. destruct (take_contained self other Hc) as (r & Hr & _).
    rewrite (take_after_loop self other r Hr), (len_ok_done self Hs),
      (len_too_long other Hge Hlong).
    reflexivity.
  - intros bag Htake.
    destruct (take_returned self other bag Htake) as (Hc & Hs & Ho & _). auto.
Qed.

Lemma take_bag_ok (self other bag : LetterBag Char Letter) :
  bag_ok self ->
  bag_ok other ->
  take self other = Done bag ->
  bag_ok bag.
Proof.
  intros [Hls Hps] [Hlo Hpo] Htake.
  destruct (take_returned self other bag Htake) as (Hc & _ & _ & r & Hr & ->).
  destruct (take_contained self other Hc) as (r' & Hr' & _ & Htot & Hpos).
  rewrite Hr in Hr'. injection Hr' as <-.
  split; cbn [length_ letters]; [lia | exact (Hpos Hps)].
Qed.

(** The length of what [take] returns is again a length that [len] returns. *)
Lemma take_len_ok (self other bag : LetterBag Char Letter) :
  bag_ok self ->
  bag_ok other ->
  take self other = Done bag ->
  len_ok bag.
Proof.
  intros Hs Ho Htake.
  pose proof (bag_ok_nonneg bag (take_bag_ok self other bag Hs Ho Htake)) as Hge.
  destruct (take_returned self other bag Htake) as (_ & Hls & Hlo & r & _ & ->).
  unfold len_ok in *. cbn [length_] in *. lia.
Qed.

(** X14: [take] keeps the invariant of the bags: when the length is the sum
    of the counts and no count is negative in both bags, the same holds of
    the bag [take] returns, so its length is not negative and [len] of it
    does not fail. *)
Theorem take_keeps_bag_ok (self other bag : LetterBag Char Letter) :
  bag_ok self ->
  bag_ok other ->
  take self other = Done bag ->
  length_ bag = total (letters bag) /\
  (forall (k : Letter) (v : Z), letters bag !! k = Some v -> 0 <= v) /\
  0 <= length_ bag /\
  len bag = Done (length_ bag).
Proof.
  intros Hs Ho Htake.
  pose proof (take_bag_ok self other bag Hs Ho Htake) as Hok.
  pose proof (bag_ok_nonneg bag Hok) as Hge.
  pose proof (len_ok_done bag (take_len_ok self other bag Hs Ho Htake)) as Hlen.
  destruct Hok as [Hl Hp].
  split; [exact Hl |]. split; [| split; [exact Hge | exact Hlen]].
  intros k v Hk. exact (Hp k v Hk).
Qed.

(** What a successful [take] leaves, for well-formed bags. *)
Lemma take_done_counts (self other bag : LetterBag Char Letter) :
  bag_ok self ->
  bag_ok other ->
  take self other = Done bag ->
  contains self other = true /\
  length_ bag = length_ self - length_ other /\
  forall k : Letter, count bag k = count self k - count other k.
Proof.
  intros Hs Ho Htake.
  destruct (take_returned self other bag Htake) as (Hc & _ & _ & r & Hr & ->).
  split; [exact Hc |]. split; [reflexivity |].
  destruct (take_contained self other Hc) as (r' & Hr' & Hlook & _).
  rewrite Hr in Hr'. injection Hr' as <-.
  rewrite contains_spec in Hc.
  intros k. unfold count. cbn [letters]. rewrite Hlook.
  destruct (letters other !! k) as [v|] eqn:Hk; cbn [from_option id]; [| lia].
  destruct (Hc k v Hk) as (n & -> & _). reflexivity.
Qed.

Lemma zero_counts m :
  map_Forall (fun _ v => v = 0) m <-> forall k : Letter, default 0 (m !! k) = 0.
Proof.
  split.
  - intros Hall k. destruct (m !! k) as [v|] eqn:Hk; [| reflexivity].
    exact (Hall k v Hk).
  - intros Hall k v Hk. specialize (Hall k). rewrite Hk in Hall. exact Hall.
Qed.

Lemma occurrences_counts (w1 w2 : list Char) :
  (forall k : Letter, count (LetterBag_init w1) k = count (LetterBag_init w2) k) <->
  Permutation (normalize (strip w1)) (normalize (strip w2)).
Proof.
  rewrite (Permutation_count_occ (fun x y : Letter => decide (x = y))).
  split; intros Hall k; specialize (Hall k).
  - rewrite !init_count in Hall. unfold occurrences in Hall. lia.
  - rewrite !init_count. unfold occurrences. rewrite Hall. reflexivity.
Qed.

Lemma classic_or_not_zero (bag : LetterBag Char Letter) :
  map_Forall (fun _ v => 0 <= v) (letters bag) ->
  map_Forall (fun _ v => v = 0) (letters bag) \/ exists k : Letter, 0 < count bag k.
Proof.
  intros Hp.
  destruct (decide (map_Forall (fun _ v => v = 0) (letters bag))) as [Hall|Hnot];
    [left; exact Hall | right].
  apply map_not_Forall in Hnot; [| apply _].
  destruct Hnot as (k & v & Hk & Hv).
  exists k. unfold count. rewrite Hk. cbn [from_option id].
  pose proof (Hp k v Hk) as Hge. cbn beta in Hge. lia.
Qed.

Lemma take_zero_counts (self other bag : LetterBag Char Letter) :
  bag_ok self ->
  bag_ok other ->
  take self other = Done bag ->
  (length_ bag = 0 <-> forall k : Letter, count self k = count other k).
Proof.
  intros Hs Ho Htake.
  destruct (take_done_counts self other bag Hs Ho Htake) as (_ & _ & Hcount).
  destruct (take_bag_ok self other bag Hs Ho Htake) as [Hl Hp].
  rewrite Hl. rewrite (proj2 (total_nonneg_zero _ Hp)). rewrite zero_counts.
  split; intros Hall k; specialize (Hall k); specialize (Hcount k);
    unfold count in *; lia.
Qed.

(** X15: when nothing remains.  After a successful [take] between
    well-formed bags, the length of the result is 0 exactly when the two
    bags hold every letter the same number of times.  For the bags of two
    words: when [take] succeeds with a result of length 0 the words' letter
    sequences are permutations of each other, that is, the words are
    anagrams; and for a word whose number of letters is a length that [len]
    returns (as that of every Python string is), [take] succeeds with a
    result of length 0 exactly when the words are anagrams. *)
Theorem take_leaves_nothing :
  (forall self other bag : LetterBag Char Letter,
      bag_ok self ->
      bag_ok other ->
      take self other = Done bag ->
      (length_ bag = 0 <-> forall k : Letter, count self k = count other k)) /\
  (forall a b : list Char,
      (exists bag, take (LetterBag_init a) (LetterBag_init b) = Done bag /\
                   length_ bag = 0) ->
      Permutation (normalize (strip a)) (normalize (strip b))) /\
  (forall a b : list Char,
      len_ok (LetterBag_init a) ->
      ((exists bag, take (LetterBag_init a) (LetterBag_init b) = Done bag /\
                    length_ bag = 0) <->
       Permutation (normalize (strip a)) (normalize (strip b)))).
Proof.
  pose proof take_zero_counts as Hgen.
  assert (Hto : forall a b : list Char,
             (exists bag, take (LetterBag_init a) (LetterBag_init b) = Done bag /\
                          length_ bag = 0) ->
             Permutation (normalize (strip a)) (normalize (strip b))).
  { intros a b (bag & Htake & Hzero). apply occurrences_counts.
    exact (proj1 (Hgen _ _ bag (init_bag_ok a) (init_bag_ok b) Htake) Hzero). }
  split; [exact Hgen |]. split; [exact Hto |].
  intros a b Hlen. split; [apply Hto |].
  rewrite <- occurrences_counts. intros Hcount.
  assert (Hc : contains (LetterBag_init a) (LetterBag_init b) = true).
  { apply contains_spec. intros k v Hk.
    specialize (Hcount k). unfold count in Hcount. rewrite Hk in Hcount.
    pose proof (proj2 (init_bag_ok b) k v Hk) as Hv. cbn beta in Hv.
    destruct (letters (LetterBag_init a) !! k) as [n|] eqn:Hn.
    - exists n. cbn [from_option id] in Hcount. split; [reflexivity | lia].
    - rewrite init_lookup in Hk. cbn [from_option id] in Hcount.
      destruct (occurrences _ k); [discriminate |]. injection Hk as <-. lia. }
  assert (Hlen_b : len_ok (LetterBag_init b)).
  { pose proof (contains_length_le _ _ (init_bag_ok a) (init_bag_ok b) Hc) as Hle.
    pose proof (bag_ok_nonneg _ (init_bag_ok b)) as Hge.
    unfold len_ok in *. lia. }
  destruct (take_done (LetterBag_init a) (LetterBag_init b) Hc Hlen Hlen_b)
    as (bag & Htake & _).
  exists bag. split; [exact Htake |].
  apply (Hgen _ _ bag (init_bag_ok a) (init_bag_ok b) Htake). exact Hcount.
Qed.

End BagLemmas.

Section SearchLemmas.

Context {Char Letter : Type} `{Countable Letter} `{PyStr Char Letter}.

Lemma built_from_skip (cand : LetterBag Char Letter) rest letters phrase s :
  built_from rest letters phrase s -> built_from (cand :: rest) letters phrase s.
Proof.
  intros (sub & Hsub & Hne & Hs & Hcount).
  exists sub. split; [apply sublist_cons; exact Hsub |]. auto.
Qed.

Lemma built_from_take (cand remaining : LetterBag Char Letter) rest letters phrase s :
  (forall k : Letter, count remaining k = count letters k - count cand k) ->
  built_from rest remaining (phrase ++ [word cand]) s ->
  built_from (cand :: rest) letters phrase s.
Proof.
  intros Hrem (sub & Hsub & Hne & Hs & Hcount).
  exists (cand :: sub). split; [apply sublist_skip; exact Hsub |].
  split; [discriminate |]. split.
  - rewrite Hs, <- app_assoc. reflexivity.
  - intros k. cbn [count_all foldr]. specialize (Hcount k). specialize (Hrem k).
    unfold count_all in Hcount. lia.
Qed.

Lemma search_from_sound (limit : Z) (candidates : list (LetterBag Char Letter)) :
  forall letters phrase result r,
    bag_ok letters ->
    Forall bag_ok candidates ->
    search_from limit candidates letters phrase result = Done r ->
    exists added,
      r = result ++ added /\
      Forall (built_from candidates letters phrase) added.
Proof.
  induction candidates as [|cand rest IH]; intros letters phrase result r Hok Hcands Hrun.
  - cbn in Hrun. injection Hrun as <-. exists []. split; [symmetry; apply app_nil_r | constructor].
  - apply Forall_cons in Hcands as [Hcand Hrest].
    cbn [search_from] in Hrun.
    assert (Houter : forall result',
               search_from limit rest letters phrase result' = Done r ->
               exists added', r = result' ++ added' /\
                              Forall (built_from (cand :: rest) letters phrase) added').
    { intros result' Hr. destruct (IH letters phrase result' r Hok Hrest Hr) as (added' & -> & Hall).
      exists added'. split; [reflexivity |].
      eapply Forall_impl; [exact Hall |]. intros s. apply built_from_skip. }
    destruct (contains letters cand) eqn:Hc; [| apply Houter; exact Hrun].
    destruct (take letters cand) as [remaining|e] eqn:Ht; [| discriminate].
    pose proof (take_bag_ok letters cand remaining Hok Hcand Ht) as Hrem.
    destruct (take_done_counts letters cand remaining Hok Hcand Ht) as (_ & _ & Hcount).
    rewrite (len_ok_done remaining (take_len_ok letters cand remaining Hok Hcand Ht))
      in Hrun.
    destruct (Z.eqb_spec (length_ remaining) 0) as [Hz|Hnz].
    + destruct (Houter _ Hrun) as (added' & -> & Hall).
      exists (join [space] (phrase ++ [word cand]) :: added').
      split; [rewrite <- app_assoc; reflexivity |].
      constructor; [| exact Hall].
      exists [cand]. split; [apply sublist_skip, sublist_nil_l |].
      split; [discriminate |]. split; [reflexivity |].
      intros k. cbn [count_all foldr].
      rewrite (proj1 (take_zero_counts letters cand remaining Hok Hcand Ht) Hz k). lia.
    + destruct (limit <? Z.of_nat (length result)); [apply Houter; exact Hrun |].
      destruct (search_from limit rest remaining (phrase ++ [word cand]) result)
        as [r1|e] eqn:Hinner; [| discriminate].
      destruct (IH remaining _ result r1 Hrem Hrest Hinner) as (added1 & -> & Hall1).
      destruct (Houter _ Hrun) as (added2 & -> & Hall2).
      exists (added1 ++ added2). split; [rewrite <- app_assoc; reflexivity |].
      apply Forall_app. split; [| exact Hall2].
      eapply Forall_impl; [exact Hall1 |]. intros s.
      apply built_from_take. exact Hcount.
Qed.

(** A candidate that the bag contains has a length that [len] returns when
    the bag has one. *)
Lemma contained_len_ok (letters cand : LetterBag Char Letter) :
  bag_ok letters -> len_ok letters -> bag_ok cand ->
  contains letters cand = true ->
  len_ok cand.
Proof.
  intros Hok Hlen Hcand Hc.
  pose proof (contains_length_le letters cand Hok Hcand Hc) as Hle.
  pose proof (bag_ok_nonneg cand Hcand) as Hge.
  unfold len_ok in *. lia.
Qed.

Lemma search_from_total (limit : Z) (candidates : list (LetterBag Char Letter)) :
  forall letters phrase result,
    bag_ok letters ->
    len_ok letters ->
    Forall bag_ok candidates ->
    exists r, search_from limit candidates letters phrase result = Done r.
Proof.
  induction candidates as [|cand rest IH]; intros letters phrase result Hok Hlen Hcands.
  - exists result. reflexivity.
  - apply Forall_cons in Hcands as [Hcand Hrest].
    cbn [search_from].
    destruct (contains letters cand) eqn:Hc; [| apply IH; assumption].
    pose proof (contained_len_ok letters cand Hok Hlen Hcand Hc) as Hlc.
    destruct (take_done letters cand Hc Hlen Hlc) as (remaining & Ht & _).
    rewrite Ht.
    pose proof (take_bag_ok letters cand remaining Hok Hcand Ht) as Hrem.
    pose proof (take_len_ok letters cand remaining Hok Hcand Ht) as Hrl.
    rewrite (len_ok_done remaining Hrl).
    destruct (length_ remaining =? 0); [apply IH; assumption |].
    destruct (limit <? Z.of_nat (length result)); [apply IH; assumption |].
    destruct (IH remaining (phrase ++ [word cand]) result Hrem Hrl Hrest) as [r1 ->].
    apply IH; assumption.
Qed.

Lemma search_from_exact (limit : Z) (candidates : list (LetterBag Char Letter)) :
  forall letters phrase result,
    bag_ok letters ->
    len_ok letters ->
    Forall (fun cand => bag_ok cand /\ contains letters cand = true /\
                        forall k : Letter, count letters k = count cand k) candidates ->
    search_from limit candidates letters phrase result =
    Done (result ++ ((fun cand => join [space] (phrase ++ [word cand])) <$> candidates)).
Proof.
  induction candidates as [|cand rest IH]; intros letters phrase result Hok Hlen Hcands.
  - cbn. rewrite app_nil_r. reflexivity.
  - apply Forall_cons in Hcands as [(Hcand & Hc & Hcount) Hrest].
    cbn [search_from]. rewrite Hc.
    pose proof (contained_len_ok letters cand Hok Hlen Hcand Hc) as Hlc.
    destruct (take_done letters cand Hc Hlen Hlc) as (remaining & Ht & _).
    rewrite Ht.
    rewrite (len_ok_done remaining (take_len_ok letters cand remaining Hok Hcand Ht)).
    rewrite (proj2 (take_zero_counts letters cand remaining Hok Hcand Ht) Hcount).
    cbn [Z.eqb]. rewrite (IH letters phrase _ Hok Hlen Hrest).
    rewrite <- app_assoc. reflexivity.
Qed.

(** The loop over candidates of which the bag contains none adds nothing. *)
Lemma search_from_none (limit : Z) (candidates : list (LetterBag Char Letter))
    (letters : LetterBag Char Letter) (phrase result : list (list Char)) :
  Forall (fun cand => contains letters cand = false) candidates ->
  search_from limit candidates letters phrase result = Done result.
Proof.
  induction 1 as [|cand rest Hc _ IH]; [reflexivity |].
  cbn [search_from]. rewrite Hc. exact IH.
Qed.

(** The loop over candidates of which the bag contains one, when the bag is
    too long for [len]: the first [take] fails. *)
Lemma search_from_too_long (limit : Z) (candidates : list (LetterBag Char Letter))
    (letters : LetterBag Char Letter) (phrase result : list (list Char)) :
  0 <= length_ letters ->
  too_long letters ->
  Exists (fun cand => contains letters cand = true) candidates ->
  search_from limit candidates letters phrase result = Raised OverflowError.
Proof.
  intros Hge Hlong.
  induction candidates as [|cand rest IH]; intros Hex; [inversion Hex |].
  cbn [search_from].
  destruct (contains letters cand) eqn:Hc.
  - destruct (take_contained letters cand Hc) as (r & Hr & _).
    rewrite (take_after_loop letters cand r Hr), (len_too_long letters Hge Hlong).
    reflexivity.
  - apply IH. apply Exists_cons in Hex as [Hhd | Htl]; [congruence | exact Htl].
Qed.

(** X16: [read_word_list] returns every line, stripped, in order: the test
    against the stop list changes nothing, no word is left out. *)
Theorem read_word_list_keeps_all (in_stop_list : list Char -> bool) (f : list (list Char)) :
  read_word_list in_stop_list f = strip <$> f /\
  length (read_word_list in_stop_list f) = length f.
Proof.
  assert (Hgen : forall acc,
             foldl (fun word_list line =>
                      let word_list := word_list ++ [strip line] in
                      if in_stop_list line then word_list else word_list) acc f
             = acc ++ (strip <$> f)).
  { induction f as [|line rest IH]; intros acc; cbn [foldl fmap list_fmap].
    - rewrite app_nil_r. reflexivity.
    - destruct (in_stop_list line); rewrite IH, <- app_assoc; reflexivity. }
  unfold read_word_list. rewrite Hgen. cbn [app].
  split; [reflexivity | apply length_fmap].
Qed.

Lemma count_nonneg (bag : LetterBag Char Letter) (k : Letter) :
  bag_ok bag -> 0 <= count bag k.
Proof.
  intros [_ Hp]. unfold count. destruct (letters bag !! k) as [v|] eqn:Hk; [| reflexivity].
  exact (Hp k v Hk).
Qed.

Lemma count_all_nonneg (bags : list (LetterBag Char Letter)) (k : Letter) :
  Forall word_bag bags -> 0 <= count_all bags k.
Proof.
  induction 1 as [|b bs [Hb _] _ IH]; cbn [count_all foldr]; [lia |].
  pose proof (count_nonneg b k Hb). unfold count_all in IH. lia.
Qed.

Lemma word_bag_has_letter (bag : LetterBag Char Letter) :
  word_bag bag -> exists k : Letter, 0 < count bag k.
Proof.
  intros ([Hl Hp] & Hpos & _).
  destruct (classic_or_not_zero bag Hp) as [Hall | Hex]; [| exact Hex].
  exfalso. apply (proj2 (total_nonneg_zero _ Hp)) in Hall. lia.
Qed.

Lemma contains_of_counts (self cand : LetterBag Char Letter) :
  word_bag cand ->
  (forall k : Letter, count cand k <= count self k) ->
  contains self cand = true.
Proof.
  intros (_ & _ & Hone) Hle. apply contains_spec. intros k v Hk.
  specialize (Hle k). unfold count in Hle. rewrite Hk in Hle. cbn [from_option id] in Hle.
  pose proof (Hone k v Hk) as Hv. cbn beta in Hv.
  destruct (letters self !! k) as [n|].
  - exists n. split; [reflexivity | exact Hle].
  - cbn [from_option id] in Hle. lia.
Qed.

Lemma search_from_complete (limit : Z) (candidates : list (LetterBag Char Letter)) :
  forall letters phrase result r sub,
    bag_ok letters ->
    Forall word_bag candidates ->
    search_from limit candidates letters phrase result = Done r ->
    Z.of_nat (length r) <= limit ->
    sublist sub candidates ->
    sub <> [] ->
    (forall k : Letter, count letters k = count_all sub k) ->
    In (join [space] (phrase ++ (word <$> sub))) r.
Proof.
  induction candidates as [|cand rest IH];
    intros letters phrase result r sub Hok Hcands Hrun Hlim Hsub Hne Hcount.
  - apply sublist_nil_r in Hsub. contradiction.
  - apply Forall_cons in Hcands as [Hcand Hrest].
    assert (Hrest_ok : Forall bag_ok rest)
      by (eapply Forall_impl; [exact Hrest | intros b Hb; exact (proj1 Hb)]).
    assert (Hsub_rest : forall l, sublist l rest -> Forall word_bag l).
    { intros l Hl. rewrite Forall_forall in *. intros b Hb. apply Hrest.
      eapply elem_of_sublist; [exact Hb | exact Hl]. }
    cbn [search_from] in Hrun.
    apply sublist_cons_r in Hsub as [Hskip | (sub' & -> & Htake)].
    + (* the first candidate is not taken *)
      destruct (if contains letters cand then _ else _) as [result'|e]; [| discriminate].
      exact (IH letters phrase result' r sub Hok Hrest Hrun Hlim Hskip Hne Hcount).
    + (* the first candidate is taken *)
      assert (Hc : contains letters cand = true).
      { apply contains_of_counts; [exact Hcand |]. intros k.
        rewrite Hcount. cbn [count_all foldr].
        pose proof (count_all_nonneg sub' k (Hsub_rest _ Htake)). unfold count_all in *. lia. }
      rewrite Hc in Hrun.
      destruct (take letters cand) as [remaining|e] eqn:Ht; [| discriminate].
      pose proof (take_bag_ok letters cand remaining Hok (proj1 Hcand) Ht) as Hrem.
      destruct (take_done_counts letters cand remaining Hok (proj1 Hcand) Ht)
        as (_ & _ & Hremcount).
      rewrite (len_ok_done remaining
                 (take_len_ok letters cand remaining Hok (proj1 Hcand) Ht)) in Hrun.
      assert (Hrem' : forall k : Letter, count remaining k = count_all sub' k).
      { intros k. rewrite Hremcount, Hcount. cbn [count_all foldr]. unfold count_all. lia. }
      destruct sub' as [|b sub''].
      * (* nothing else is taken: the remainder is empty *)
        assert (Hz : length_ remaining = 0).
        { apply (take_zero_counts letters cand remaining Hok (proj1 Hcand) Ht).
          intros k. rewrite Hcount. cbn [count_all foldr]. lia. }
        rewrite Hz in Hrun. cbn [Z.eqb] in Hrun.
        destruct (search_from_sound limit rest letters phrase _ r Hok Hrest_ok Hrun)
          as (added & -> & _).
        apply in_or_app. left. apply in_or_app. right. left. reflexivity.
      * (* more is taken: the remainder is not empty *)
        assert (Hnz : length_ remaining <> 0).
        { intros Hz0.
          pose proof (proj1 (take_zero_counts letters cand remaining Hok (proj1 Hcand) Ht) Hz0)
            as Hz.
          pose proof (Hsub_rest _ Htake) as Hwb. apply Forall_cons in Hwb as [Hb Hwb].
          destruct (word_bag_has_letter b Hb) as [k Hk].
          specialize (Hz k). specialize (Hrem' k). specialize (Hremcount k).
          cbn [count_all foldr] in Hrem'.
          pose proof (count_all_nonneg sub'' k Hwb). unfold count_all in *. lia. }
        destruct (Z.eqb_spec (length_ remaining) 0) as [|_]; [contradiction |].
        destruct (limit <? Z.of_nat (length result)) eqn:Hcheck.
        { (* the limit test cannot stop the search here *)
          destruct (search_from_sound limit rest letters phrase _ r Hok Hrest_ok Hrun)
            as (added & -> & _).
          apply Z.ltb_lt in Hcheck. rewrite length_app in Hlim. lia. }
        destruct (search_from limit rest remaining (phrase ++ [word cand]) result)
          as [r1|e] eqn:Hinner; [| discriminate].
        destruct (search_from_sound limit rest letters phrase _ r Hok Hrest_ok Hrun)
          as (added & -> & _).
        apply in_or_app. left.
        replace (phrase ++ (word <$> cand :: b :: sub''))
          with ((phrase ++ [word cand]) ++ (word <$> b :: sub''))
          by (rewrite <- app_assoc; reflexivity).
        apply (IH remaining _ result r1 (b :: sub'') Hrem Hrest Hinner);
          [| exact Htake | discriminate | exact Hrem'].
        rewrite length_app in Hlim. lia.
Qed.

Lemma _search_sound (limit : Z) (candidates : list (LetterBag Char Letter))
    letters phrase r :
  bag_ok letters ->
  Forall bag_ok candidates ->
  _search limit candidates letters phrase [] = Done r ->
  Forall (built_from candidates letters phrase) r.
Proof.
  intros Hok Hcands Hrun. unfold _search in Hrun.
  destruct (limit <? Z.of_nat (length [])).
  - injection Hrun as <-. constructor.
  - destruct (search_from_sound limit candidates letters phrase [] r Hok Hcands Hrun)
      as (added & -> & Hall).
    exact Hall.
Qed.

Lemma seed_test (seed : list Char) :
  negb (Z.of_nat (length seed) =? 0) = match seed with [] => false | _ :: _ => true end.
Proof.
  destruct seed; [reflexivity |]. cbn [length].
  destruct (Z.eqb_spec (Z.of_nat (S (length seed))) 0); [lia | reflexivity].
Qed.

(** X17: what [search] reports.  Every entry of the result is built from
    candidates taken in the order of the list (at least one), joined by
    blanks after the seed if there is one, and the candidates taken hold
    together exactly the letters of the bag searched (less the seed's). *)
Theorem search_sound (letters : LetterBag Char Letter)
    (candidates : list (LetterBag Char Letter)) (limit : Z) (seed : list Char)
    (r : list (list Char)) :
  bag_ok letters ->
  Forall bag_ok candidates ->
  search letters candidates limit seed = Done r ->
  (seed = [] -> Forall (built_from candidates letters []) r) /\
  (seed <> [] ->
   exists rest_letters,
     take letters (LetterBag_init seed) = Done rest_letters /\
     (forall k : Letter,
         count rest_letters k = count letters k - count (LetterBag_init seed) k) /\
     Forall (built_from candidates rest_letters [seed]) r).
Proof.
  intros Hok Hcands Hrun. unfold search in Hrun. rewrite seed_test in Hrun.
  destruct seed as [|ch seed'].
  - split; [intros _ | intros Hne; contradiction].
    exact (_search_sound limit candidates letters [] r Hok Hcands Hrun).
  - split; [discriminate | intros _].
    destruct (take letters (LetterBag_init (ch :: seed'))) as [rest_letters|e] eqn:Ht;
      [| discriminate].
    pose proof (init_bag_ok (ch :: seed')) as Hseed.
    exists rest_letters. split; [reflexivity |]. split.
    + exact (proj2 (proj2 (take_done_counts _ _ _ Hok Hseed Ht))).
    + apply (_search_sound limit candidates rest_letters); [| exact Hcands | exact Hrun].
      exact (take_bag_ok _ _ _ Hok Hseed Ht).
Qed.

(** X18: when [search] returns and when it raises, over well-formed bags.
    For a bag whose length [len] returns, [search] returns when there is no
    seed or the bag searched contains the seed's bag.  When the seed is not
    contained, the failed assertion of [take] reaches the caller, whatever
    the length is.  For a bag longer than [sys.maxsize] the first [take]
    raises [OverflowError]: with a seed that is contained, or without a seed
    as soon as the limit is not negative and some candidate is contained.
    Without a seed, a negative limit or candidates of which none is
    contained give the empty result, whatever the length is. *)
Theorem search_returns_or_raises (letters : LetterBag Char Letter)
    (candidates : list (LetterBag Char Letter)) (limit : Z) (seed : list Char) :
  bag_ok letters ->
  Forall bag_ok candidates ->
  (len_ok letters ->
   seed = [] \/ contains letters (LetterBag_init seed) = true ->
   exists r, search letters candidates limit seed = Done r) /\
  (seed <> [] -> contains letters (LetterBag_init seed) = false ->
   search letters candidates limit seed = Raised AssertionError) /\
  (too_long letters ->
   (seed <> [] /\ contains letters (LetterBag_init seed) = true) \/
   (seed = [] /\ 0 <= limit /\
    Exists (fun cand => contains letters cand = true) candidates) ->
   search letters candidates limit seed = Raised OverflowError) /\
  (seed = [] ->
   limit < 0 \/ Forall (fun cand => contains letters cand = false) candidates ->
   search letters candidates limit seed = Done []).
Proof.
  intros Hok Hcands.
  assert (Hs : forall letters' phrase,
             bag_ok letters' -> len_ok letters' ->
             exists r, _search limit candidates letters' phrase [] = Done r).
  { intros letters' phrase Hok' Hlen'. unfold _search.
    destruct (limit <? Z.of_nat (length [])); [eauto |].
    apply search_from_total; assumption. }
  pose proof (bag_ok_nonneg letters Hok) as Hge.
  unfold search. rewrite seed_test.
  split; [| split; [| split]].
  - intros Hlen Hseed. destruct seed as [|ch seed']; [apply Hs; assumption |].
    destruct Hseed as [Hnil | Hc]; [discriminate |].
    pose proof (init_bag_ok (ch :: seed')) as Hsb.
    pose proof (contained_len_ok letters _ Hok Hlen Hsb Hc) as Hls.
    destruct (take_done letters _ Hc Hlen Hls) as (rest_letters & Ht & _).
    rewrite Ht. apply Hs.
    + exact (take_bag_ok _ _ _ Hok Hsb Ht).
    + exact (take_len_ok _ _ _ Hok Hsb Ht).
  - intros Hne Hc. destruct seed as [|ch seed']; [contradiction |].
    rewrite (take_not_contained _ _ Hc). reflexivity.
  - intros Hlong [[Hne Hc] | (-> & Hlim & Hex)].
    + destruct seed as [|ch seed']; [contradiction |].
      destruct (take_contained letters _ Hc) as (r & Hr & _).
      rewrite (take_after_loop letters _ r Hr), (len_too_long letters Hge Hlong).
      reflexivity.
    + unfold _search. cbn [length].
      destruct (Z.ltb_spec limit (Z.of_nat 0)); [lia |].
      apply search_from_too_long; assumption.
  - intros -> Hnone. unfold _search. cbn [length].
    destruct (Z.ltb_spec limit (Z.of_nat 0)); [reflexivity |].
    destruct Hnone as [Hneg | Hnone]; [lia |].
    apply search_from_none. exact Hnone.
Qed.

(** X19: [limit] does not bound the result.  A negative [limit] gives the
    empty result; with a [limit] of 0 or more and a bag whose length [len]
    returns, when every candidate holds exactly the letters of the bag
    searched, each of them is reported, as many as there are. *)
Theorem search_limit (letters : LetterBag Char Letter)
    (candidates : list (LetterBag Char Letter)) (limit : Z) :
  bag_ok letters ->
  (limit < 0 -> search letters candidates limit [] = Done []) /\
  (0 <= limit ->
   len_ok letters ->
   Forall (fun cand => bag_ok cand /\ contains letters cand = true /\
                       forall k : Letter, count letters k = count cand k) candidates ->
   search letters candidates limit [] = Done (word <$> candidates) /\
   length (word <$> candidates) = length candidates).
Proof.
  intros Hok. unfold search, _search. rewrite seed_test. cbn [length].
  split.
  - intros Hneg. destruct (Z.ltb_spec limit (Z.of_nat 0)); [reflexivity | lia].
  - intros Hpos Hlen Hcands.
    destruct (Z.ltb_spec limit (Z.of_nat 0)); [lia |].
    rewrite (search_from_exact limit candidates letters [] [] Hok Hlen Hcands).
    split; [reflexivity | apply length_fmap].
Qed.

(** X20: within the limit nothing is missed.  When the candidates are bags
    of words with at least one letter and the result has at most [limit]
    entries, the result of an unseeded [search] holds the phrase of every
    non-empty choice of candidates, taken in the order of the list, that
    hold together exactly the letters of the bag searched. *)
Theorem search_complete (letters : LetterBag Char Letter)
    (candidates sub : list (LetterBag Char Letter)) (limit : Z)
    (r : list (list Char)) :
  bag_ok letters ->
  Forall word_bag candidates ->
  search letters candidates limit [] = Done r ->
  Z.of_nat (length r) <= limit ->
  sublist sub candidates ->
  sub <> [] ->
  (forall k : Letter, count letters k = count_all sub k) ->
  In (join [space] (word <$> sub)) r.
Proof.
  intros Hok Hcands Hrun Hlim Hsub Hne Hcount.
  unfold search, _search in Hrun. rewrite seed_test in Hrun. cbn [length] in Hrun.
  destruct (Z.ltb_spec limit (Z.of_nat 0)) as [Hneg|_].
  - injection Hrun as <-. cbn [length] in Hlim. lia.
  - exact (search_from_complete limit candidates letters [] [] r sub
             Hok Hcands Hrun Hlim Hsub Hne Hcount).
Qed.

End SearchLemmas.

(** ** The bag and search theorems at concrete inputs *)

Lemma init_word_bag {Char Letter : Type} `{Countable Letter} `{PyStr Char Letter}
    (w : list Char) :
  normalize (strip w) <> [] -> word_bag (LetterBag_init w).
Proof.
  intros Hne. split; [apply init_bag_ok |]. split.
  - cbn [LetterBag_init length_]. destruct (normalize (strip w)); [contradiction |].
    cbn [length]. lia.
  - intros k v Hk. rewrite init_lookup in Hk.
    destruct (occurrences _ k); [discriminate |]. injection Hk as <-. lia.
Qed.

Lemma sample_candidates_word_bags : Forall word_bag sample_candidates.
Proof.
  repeat constructor; apply init_word_bag; discriminate.
Qed.

Lemma sample_candidates_ok : Forall bag_ok sample_candidates.
Proof.
  repeat constructor; apply init_bag_ok.
Qed.

(** [take_keeps_bag_ok]: the letters of at taken from those of Eat. *)
Lemma take_keeps_bag_ok_witness :
  bag_ok (LetterBag_init text_eat) /\
  bag_ok (LetterBag_init text_at) /\
  exists bag,
    take (LetterBag_init text_eat) (LetterBag_init text_at) = Done bag /\
    0 <= length_ bag /\
    len bag = Done (length_ bag).
Proof.
  split; [apply init_bag_ok |]. split; [apply init_bag_ok |].
  assert (Ht : exists bag, take (LetterBag_init text_eat) (LetterBag_init text_at) = Done bag)
    by (eexists; reflexivity).
  destruct Ht as [bag Ht].
  destruct (take_keeps_bag_ok (LetterBag_init text_eat) (LetterBag_init text_at) bag
              (init_bag_ok text_eat) (init_bag_ok text_at) Ht)
    as (_ & _ & Hge & Hlen).
  exists bag. split; [exact Ht |]. split; [exact Hge | exact Hlen].
Defined.

(** [search_sound]: the anagrams of Eat among tea, at and e. *)
Lemma search_sound_witness :
  bag_ok (LetterBag_init text_eat) /\
  Forall bag_ok sample_candidates /\
  search (LetterBag_init text_eat) sample_candidates 500 []
  = Done [[116; 101; 97]; [97; 116; 32; 101]] /\
  Forall (built_from sample_candidates (LetterBag_init text_eat) [])
         [[116; 101; 97]; [97; 116; 32; 101]].
Proof.
  split; [apply init_bag_ok |]. split; [exact sample_candidates_ok |].
  split; [reflexivity |].
  exact (proj1 (search_sound (LetterBag_init text_eat) sample_candidates 500 [] _
                  (init_bag_ok text_eat) sample_candidates_ok eq_refl) eq_refl).
Defined.

Lemma eat_len_ok : len_ok (LetterBag_init text_eat).
Proof.
  split; vm_compute; discriminate.
Qed.

Lemma at_len_ok : len_ok (LetterBag_init text_at).
Proof.
  split; vm_compute; discriminate.
Qed.

(** [take_iff_contains]: at taken from Eat leaves one letter, the e; ax
    cannot be taken from Eat; and nothing can be taken from a bag one
    longer than [sys.maxsize], since [len] refuses it. *)
Lemma take_iff_contains_witness :
  (exists bag,
      take (LetterBag_init text_eat) (LetterBag_init text_at) = Done bag /\
      length_ bag = 1 /\
      count bag 101 = 1 /\ count bag 97 = 0 /\ count bag 116 = 0 /\
      is_Some (letters bag !! 97)) /\
  take (LetterBag_init text_eat) (LetterBag_init text_ax) = Raised AssertionError /\
  take bag_too_long (LetterBag_init text_e) = Raised OverflowError.
Proof.
  destruct (take_iff_contains (LetterBag_init text_eat) (LetterBag_init text_at))
    as (_ & Hdone & _).
  destruct (Hdone eq_refl eat_len_ok at_len_ok) as (bag & Ht & _ & Hl & Hcount & Hkeys).
  destruct (take_iff_contains (LetterBag_init text_eat) (LetterBag_init text_ax))
    as (Hassert & _).
  destruct (take_iff_contains bag_too_long (LetterBag_init text_e))
    as (_ & _ & _ & Hover & _).
  split; [| split].
  - exists bag. split; [exact Ht |]. split; [rewrite Hl; reflexivity |].
    split; [rewrite Hcount; reflexivity |]. split; [rewrite Hcount; reflexivity |].
    split; [rewrite Hcount; reflexivity |].
    apply Hkeys. eexists. reflexivity.
  - apply Hassert. reflexivity.
  - apply Hover; [reflexivity | | reflexivity]. vm_compute. discriminate.
Defined.

Lemma exact_candidates_exact :
  Forall (fun cand => bag_ok cand /\ contains (LetterBag_init text_eat) cand = true /\
                      forall k : Z, count (LetterBag_init text_eat) k = count cand k)
         exact_candidates.
Proof.
  repeat constructor; try apply init_bag_ok;
    intros k; rewrite !init_count;
    change (normalize (strip text_eat)) with [101; 97; 116];
    change (normalize (strip text_tea)) with [116; 101; 97];
    change (normalize (strip text_ate)) with [97; 116; 101];
    unfold occurrences; cbn [count_occ]; repeat case_decide; lia.
Qed.

Lemma bag_too_long_ok : bag_ok bag_too_long.
Proof.
  split; [reflexivity |].
  intros k v Hk. unfold bag_too_long in Hk. cbn [letters] in Hk.
  apply lookup_singleton_Some in Hk as [_ <-]. lia.
Qed.

(** [search_returns_or_raises]: for Eat, the seed at is held and the search
    returns; the seed ax is not, and the assertion fails; and a bag one
    longer than [sys.maxsize] that contains the candidate e makes the first
    [take] raise [OverflowError]. *)
Lemma search_returns_or_raises_witness :
  bag_ok (LetterBag_init text_eat) /\
  Forall bag_ok sample_candidates /\
  len_ok (LetterBag_init text_eat) /\
  contains (LetterBag_init text_eat) (LetterBag_init text_at) = true /\
  (exists r, search (LetterBag_init text_eat) sample_candidates 500 text_at = Done r) /\
  text_ax <> [] /\
  contains (LetterBag_init text_eat) (LetterBag_init text_ax) = false /\
  search (LetterBag_init text_eat) sample_candidates 500 text_ax = Raised AssertionError /\
  bag_ok bag_too_long /\
  too_long bag_too_long /\
  Exists (fun cand => contains bag_too_long cand = true) sample_candidates /\
  search bag_too_long sample_candidates 500 [] = Raised OverflowError.
Proof.
  assert (Hlong : too_long bag_too_long) by reflexivity.
  assert (Hex : Exists (fun cand => contains bag_too_long cand = true) sample_candidates)
    by (right; right; left; reflexivity).
  destruct (search_returns_or_raises (LetterBag_init text_eat) sample_candidates
              500 text_at (init_bag_ok text_eat) sample_candidates_ok)
    as (Hret & _).
  destruct (search_returns_or_raises (LetterBag_init text_eat) sample_candidates
              500 text_ax (init_bag_ok text_eat) sample_candidates_ok)
    as (_ & Hassert & _).
  destruct (search_returns_or_raises bag_too_long sample_candidates
              500 [] bag_too_long_ok sample_candidates_ok)
    as (_ & _ & Hover & _).
  split; [apply init_bag_ok |]. split; [exact sample_candidates_ok |].
  split; [exact eat_len_ok |]. split; [reflexivity |].
  split; [apply Hret; [exact eat_len_ok | right; reflexivity] |].
  split; [discriminate |]. split; [reflexivity |].
  split; [apply Hassert; [discriminate | reflexivity] |].
  split; [exact bag_too_long_ok |]. split; [exact Hlong |]. split; [exact Hex |].
  apply Hover; [exact Hlong |]. right. split; [reflexivity |]. split; [lia | exact Hex].
Defined.

(** [search_limit]: with the limit 0, the three candidates tea, Eat and ate
    are all reported for Eat; with the limit -1, none. *)
Lemma search_limit_witness :
  bag_ok (LetterBag_init text_eat) /\
  len_ok (LetterBag_init text_eat) /\
  Forall (fun cand => bag_ok cand /\ contains (LetterBag_init text_eat) cand = true /\
                      forall k : Z, count (LetterBag_init text_eat) k = count cand k)
         exact_candidates /\
  search (LetterBag_init text_eat) exact_candidates 0 []
  = Done [[116; 101; 97]; [69; 97; 116]; [97; 116; 101]] /\
  (0 < length (word <$> exact_candidates))%nat /\
  length (word <$> exact_candidates) = 3%nat /\
  search (LetterBag_init text_eat) exact_candidates (-1) [] = Done [].
Proof.
  destruct (search_limit (LetterBag_init text_eat) exact_candidates 0
              (init_bag_ok text_eat)) as [_ Hzero].
  destruct (Hzero (Z.le_refl 0) eat_len_ok exact_candidates_exact) as [Hrun Hlength].
  destruct (search_limit (LetterBag_init text_eat) exact_candidates (-1)
              (init_bag_ok text_eat)) as [Hneg _].
  split; [apply init_bag_ok |]. split; [exact eat_len_ok |].
  split; [exact exact_candidates_exact |].
  split; [exact Hrun |]. split; [rewrite Hlength; cbn [exact_candidates length]; lia |].
  split; [exact Hlength |].
  apply Hneg. lia.
Defined.

Lemma eat_is_at_e (k : Z) :
  count (LetterBag_init text_eat) k
  = count_all [LetterBag_init text_at; LetterBag_init text_e] k.
Proof.
  cbn [count_all foldr]. rewrite !init_count.
  change (normalize (strip text_eat)) with [101; 97; 116].
  change (normalize (strip text_at)) with [97; 116].
  change (normalize (strip text_e)) with [101].
  unfold occurrences. cbn [count_occ].
  repeat case_decide; lia.
Qed.

(** [search_complete]: at and e together are found for Eat. *)
Lemma search_complete_witness :
  bag_ok (LetterBag_init text_eat) /\
  Forall word_bag sample_candidates /\
  search (LetterBag_init text_eat) sample_candidates 500 []
  = Done [[116; 101; 97]; [97; 116; 32; 101]] /\
  Z.of_nat (length [[116; 101; 97]; [97; 116; 32; 101]]) <= 500 /\
  sublist [LetterBag_init text_at; LetterBag_init text_e] sample_candidates /\
  [LetterBag_init text_at; LetterBag_init text_e] <> [] /\
  (forall k : Z,
      count (LetterBag_init text_eat) k
      = count_all [LetterBag_init text_at; LetterBag_init text_e] k) /\
  In (join [space] (word <$> [LetterBag_init text_at; LetterBag_init text_e]))
     [[116; 101; 97]; [97; 116; 32; 101]].
Proof.
  assert (Hlim : Z.of_nat (length [[116; 101; 97]; [97; 116; 32; 101]]) <= 500)
    by (cbn [length]; lia).
  assert (Hsub : sublist [LetterBag_init text_at; LetterBag_init text_e] sample_candidates)
    by (apply sublist_cons, sublist_skip, sublist_skip, sublist_nil).
  assert (Hne : [LetterBag_init text_at; LetterBag_init text_e] <> [])
    by discriminate.
  split; [apply init_bag_ok |]. split; [exact sample_candidates_word_bags |].
  split; [reflexivity |]. split; [exact Hlim |]. split; [exact Hsub |].
  split; [exact Hne |]. split; [exact eat_is_at_e |].
  exact (search_complete (LetterBag_init text_eat) sample_candidates _ 500 _
           (init_bag_ok text_eat) sample_candidates_word_bags eq_refl Hlim Hsub Hne
           eat_is_at_e).
Defined.
